(** * Classifying Wikipedia changes: the online logistic-regression notebook

    A shallow embedding of the code cells of
    [_notebooks/2014-10-10-Classifying_Wikipedia_Changes.ipynb]:
    the feature extractor ([get_length_statistics], [get_data]), the
    classifier ([predict], [update]), the training loop, the evaluation
    loop with its confusion matrix and the axis labels of its plot; and of
    the stop-word cells of the notebook on topic discovery.

    The notebook is Python 2.  Its numbers are Python [int]s (unbounded,
    here [Z]) and Python [float]s (IEEE binary64).  Every function below is
    written once against the float operations it uses ([PyFloat]); these are
    interpreted in binary64 ([b64], what the interpreter computes, with
    Rocq's primitive floats) and in exact real arithmetic ([exact], what the
    formulas mean).  Exceptions are results ([res]). *)

From Stdlib Require Import ZArith Floats Reals Lra Lia Bool.
From Stdlib Require Import Strings.String.
From stdpp Require Import base option list gmap.

Local Open Scope Z_scope.

(** ** Exceptions *)

Inductive exn : Set :=
  | IndexError | KeyError | ZeroDivisionError | ValueError | OverflowError.

Inductive res (A : Type) : Type :=
  | Ok (a : A)
  | Raise (e : exn).
Arguments Ok {A} a.
Arguments Raise {A} e.

#[global] Instance res_ret : MRet res := fun A a => Ok a.
#[global] Instance res_bind : MBind res := fun A B k m =>
  match m with
  | Ok a => k a
  | Raise e => Raise e
  end.

(** A [for] loop over a list whose body may raise. *)
Fixpoint for_each {A S : Type} (body : S -> A -> res S) (l : list A) (s : S) : res S :=
  match l with
  | [] => Ok s
  | a :: l' => s' ← body s a; for_each body l' s'
  end.

(** ** Python lists *)

(** [l[i]]: a negative index counts from the end, anything outside
    raises [IndexError]. *)
Definition py_index {A : Type} (l : list A) (i : Z) : res nat :=
  let n := Z.of_nat (length l) in
  if bool_decide (0 <= i < n) then Ok (Z.to_nat i)
  else if bool_decide (- n <= i < 0) then Ok (Z.to_nat (i + n))
  else Raise IndexError.

Definition getitem {A : Type} (l : list A) (i : Z) : res A :=
  k ← py_index l i;
  match l !! k with
  | Some a => Ok a
  | None => Raise IndexError
  end.

Definition setitem {A : Type} (l : list A) (i : Z) (a : A) : res (list A) :=
  k ← py_index l i; Ok (<[k := a]> l).

(** [enumerate(l)] *)
Definition enumerate {A : Type} (l : list A) : list (Z * A) :=
  imap (fun i a => (Z.of_nat i, a)) l.

(** ** Python floats *)

Class PyFloat (F : Type) : Type := {
  lit_0 : F;                      (* 0. *)
  lit_1 : F;                      (* 1. *)
  lit_100 : F;                    (* 100. *)
  lit_half : F;                   (* .5 *)
  float_of_int : Z -> res F;      (* int operand of a float operation *)
  fadd : F -> F -> F;
  fsub : F -> F -> F;
  fmul : F -> F -> F;
  fneg : F -> F;
  fdiv : F -> F -> res F;         (* ZeroDivisionError on a zero divisor *)
  flt : F -> F -> bool;           (* x < y *)
  math_sqrt : F -> res F;         (* ValueError on a negative argument *)
  math_exp : F -> res F           (* OverflowError when the result overflows *)
}.

(** [max(a, b)] and [min(a, b)] keep the first argument unless the second
    compares strictly greater (smaller). *)
Definition py_max {F} `{PyFloat F} (a b : F) : F := if flt a b then b else a.
Definition py_min {F} `{PyFloat F} (a b : F) : F := if flt b a then b else a.

(** *** binary64 *)

Module B64.

(** [math.exp] is the C library's exponential, which is outside the
    repository.  It is modelled by the correctly rounded exponential:
    the argument is reduced by a multiple of [ln 2], the series is summed
    in fixed point with [exp_bits] fractional bits, and the sum is rounded
    to nearest even once. *)
Definition exp_bits : Z := 192.

(** [floor (ln 2 * 2^192)] *)
Definition ln2_fix : Z := 4350955369971217654477563090224794165364344896676135745069.

Fixpoint exp_series (fuel : nat) (n r term acc : Z) : Z :=
  match fuel with
  | O => acc
  | S fuel' =>
      let term' := (term * r / 2 ^ exp_bits) / n in
      exp_series fuel' (n + 1) r term' (acc + term')
  end.

Definition exp64 (x : float) : float :=
  match Prim2SF x with
  | S754_nan => nan
  | S754_infinity s => if s then zero else infinity
  | S754_zero _ => one
  | S754_finite s m e =>
      if 11 <? Z.pos (SpecFloat.digits2_pos m) + e
      then (if s then zero else infinity)
      else
        let v := Z.shiftl (if s then Z.neg m else Z.pos m) (e + exp_bits) in
        let k := (2 * v + ln2_fix) / (2 * ln2_fix) in
        let r := v - k * ln2_fix in
        let sum := exp_series 60 1 r (2 ^ exp_bits) (2 ^ exp_bits) in
        SF2Prim (SpecFloat.binary_normalize prec emax sum (k - exp_bits) false)
  end.

(** The largest double whose exponential is finite. *)
Definition exp_overflow_threshold : float := 0x1.62e42fefa39efp+9%float.

Definition exp (x : float) : res float :=
  if PrimFloat.ltb exp_overflow_threshold x && negb (PrimFloat.is_infinity x)
  then Raise OverflowError
  else Ok (exp64 x).

Definition sqrt (x : float) : res float :=
  if PrimFloat.ltb x 0%float then Raise ValueError else Ok (PrimFloat.sqrt x).

Definition div (x y : float) : res float :=
  if PrimFloat.eqb y 0%float then Raise ZeroDivisionError else Ok (PrimFloat.div x y).

(** Conversion of an [int] rounds to nearest even and raises
    [OverflowError] beyond the double range. *)
Definition of_int (z : Z) : res float :=
  let r := SF2Prim (SpecFloat.binary_normalize prec emax z 0 false) in
  if PrimFloat.is_infinity r then Raise OverflowError else Ok r.

End B64.

#[global] Instance b64 : PyFloat float := {
  lit_0 := 0%float;
  lit_1 := 1%float;
  lit_100 := 100%float;
  lit_half := 0.5%float;
  float_of_int := B64.of_int;
  fadd := PrimFloat.add;
  fsub := PrimFloat.sub;
  fmul := PrimFloat.mul;
  fneg := PrimFloat.opp;
  fdiv := B64.div;
  flt := PrimFloat.ltb;
  math_sqrt := B64.sqrt;
  math_exp := B64.exp
}.

(** *** exact arithmetic *)

Module Exact.

Definition div (x y : R) : res R :=
  if Req_dec_T y 0%R then Raise ZeroDivisionError else Ok (x / y)%R.

Definition ltb (x y : R) : bool := if Rlt_dec x y then true else false.

Definition sqrt (x : R) : res R :=
  if Rlt_dec x 0%R then Raise ValueError else Ok (R_sqrt.sqrt x).

End Exact.

#[global] Instance exact : PyFloat R := {
  lit_0 := 0%R;
  lit_1 := 1%R;
  lit_100 := 100%R;
  lit_half := (/ 2)%R;
  float_of_int := fun z => Ok (IZR z);
  fadd := Rplus;
  fsub := Rminus;
  fmul := Rmult;
  fneg := Ropp;
  fdiv := Exact.div;
  flt := Exact.ltb;
  math_sqrt := Exact.sqrt;
  math_exp := fun x => Ok (Rtrigo_def.exp x)
}.

(** ** The store of list objects

    The weight rows and the rows of the confusion matrix are Python lists
    that are mutated in place through references ([w[k]],
    [confusion_matrix[i]]).  They live in a store addressed by allocation
    order; a reference is a location.  Locations are only ever obtained from
    [alloc], so reading one is total. *)

Abbreviation loc := nat (only parsing).
Abbreviation heap A := (list (list A)) (only parsing).

Definition alloc {A : Type} (v : list A) (h : heap A) : loc * heap A :=
  (length h, h ++ [v]).

(** [[row for k in range(n)]]: a fresh [row] object for every [k]. *)
Fixpoint alloc_rows {A : Type} (n : nat) (row : list A) (h : heap A) : list loc * heap A :=
  match n with
  | O => ([], h)
  | S n' =>
      let '(l, h1) := alloc row h in
      let '(ls, h2) := alloc_rows n' row h1 in
      (l :: ls, h2)
  end.

(** ** Constants of the notebook *)

Definition D_sparse : Z := 2 ^ 18.
Definition K : Z := 3.

(** [range(n)] *)
Definition range (n : Z) : list Z := seqZ 0 n.

(** One element of [json.loads(r.text)['query']['recentchanges']]; the
    flags [bot], [minor] and [new] are keys that are present or absent. *)
Record change : Set := {
  newlen : Z;
  oldlen : Z;
  parsedcomment : string;
  user : string;
  title : string;
  bot : option string;
  minor : option string;
  new : option string
}.

Section Notebook.

Context {F : Type} `{PyFloat F}.

(** Python's builtin [hash] on strings. *)
Variable hash : string -> Z.

(** ** Feature extraction *)

Definition get_length_statistics (length n : Z) (mean M2 : F) : res (F * F * F) :=
  let n := n + 1 in
  flength ← float_of_int length;
  let delta := fsub flength mean in
  fn ← float_of_int n;
  q ← fdiv delta fn;
  let mean := fadd mean q in
  let M2 := fadd M2 (fmul delta (fsub flength mean)) in
  if bool_decide (n < 2) then Ok (mean, lit_0, M2)
  else
    fn1 ← float_of_int (n - 1);
    variance ← fdiv M2 fn1;
    std ← math_sqrt variance;
    Ok (mean, std, M2).

(** The local variables of the generator [get_data].  [X], [X_sparse] and
    [Y] are the three list objects it overwrites and yields on every
    iteration; the consumers below read them before the generator is
    resumed, so an observation is the state right after a step. *)
Record gen_state : Type := {
  length_n : Z;
  length_mean : F;
  length_M2 : F;
  X : list F;
  X_sparse : list Z;
  Y : list Z
}.

Definition get_data_init : gen_state := {|
  length_n := 0;
  length_mean := lit_0;
  length_M2 := lit_0;
  X := [lit_1; lit_0];
  X_sparse := [0; 0; 0];
  Y := [0; 0; 0]
|}.

Definition flag (v : option string) : Z :=
  match v with
  | None => 0
  | Some _ => 1
  end.

(** The body of [for el in r_json], up to the [yield].  In the fallback
    [X[1]] holds the int [length]; [predict] and [update] use it as a float,
    which is where it is converted here. *)
Definition get_data_step (g : gen_state) (el : change) : res gen_state :=
  let length := Z.abs (newlen el - oldlen el) in
  let length_n := length_n g + 1 in
  '(length_mean, length_std, length_M2) ←
    get_length_statistics length length_n (length_mean g) (length_M2 g);
  x1 ← (if flt lit_0 length_std
        then flength ← float_of_int length;
             fdiv (fsub flength length_mean) length_std
        else float_of_int length);
  X ← setitem (X g) 1 x1;
  X_sparse ← setitem (X_sparse g) 0
    (Z.abs (hash (String.append "comment_" (parsedcomment el))) `mod` D_sparse);
  X_sparse ← setitem X_sparse 1
    (Z.abs (hash (String.append "username_" (user el))) `mod` D_sparse);
  X_sparse ← setitem X_sparse 2
    (Z.abs (hash (String.append "title_" (title el))) `mod` D_sparse);
  Y ← setitem (Y g) 0 (flag (bot el));
  Y ← setitem Y 1 (flag (minor el));
  Y ← setitem Y 2 (flag (new el));
  Ok {| length_n := length_n; length_mean := length_mean; length_M2 := length_M2;
        X := X; X_sparse := X_sparse; Y := Y |}.

(** The observations [get_data()] yields for a feed, from fresh statistics. *)
Fixpoint get_data_from (g : gen_state) (feed : list change) : res (list gen_state) :=
  match feed with
  | [] => Ok []
  | el :: feed' =>
      g' ← get_data_step g el;
      rest ← get_data_from g' feed';
      Ok (g' :: rest)
  end.

Definition get_data (feed : list change) : res (list gen_state) :=
  get_data_from get_data_init feed.

(** ** The classifier *)

(** The two accumulation loops of [predict]. *)
Definition wTx (w w_sparse : loc) (x : list F) (x_sparse : list Z) (h : heap F) : res F :=
  wTx ← for_each (fun wTx '(i, val) =>
                    wi ← getitem (h !!! w) i;
                    Ok (fadd wTx (fmul wi val)))
                 (enumerate x) lit_0;
  for_each (fun wTx i =>
              wi ← getitem (h !!! w_sparse) i;
              Ok (fadd wTx wi))
           x_sparse wTx.

(** [predict]; the handler of [OverflowError] prints the dot product and
    raises the exception again. *)
Definition predict (w w_sparse : loc) (x : list F) (x_sparse : list Z) (h : heap F) : res F :=
  wTx ← wTx w w_sparse x x_sparse h;
  let wTx := py_min (py_max wTx (fneg lit_100)) lit_100 in
  e ← math_exp (fneg wTx);
  fdiv lit_1 (fadd lit_1 e).

Definition update (alpha : F) (w w_sparse : loc) (x : list F) (x_sparse : list Z)
    (p : F) (y : Z) (h : heap F) : res (heap F) :=
  h ← for_each (fun h '(i, val) =>
                  wi ← getitem (h !!! w) i;
                  fy ← float_of_int y;
                  row ← setitem (h !!! w) i (fadd wi (fmul (fmul (fsub fy p) alpha) val));
                  Ok (<[w := row]> h))
               (enumerate x) h;
  for_each (fun h i =>
              wi ← getitem (h !!! w_sparse) i;
              fy ← float_of_int y;
              row ← setitem (h !!! w_sparse) i (fadd wi (fmul (fsub fy p) alpha));
              Ok (<[w_sparse := row]> h))
           x_sparse h.

(** ** Training *)

Record trainer : Type := {
  store : heap F;
  w : list loc;
  w_sparse : list loc;
  predictions : list F;
  ctr : Z
}.


(** The body of [for k in range(K)] in the training cell. *)
Definition train_label (alpha : F) (o : gen_state) (t : trainer) (k : Z) : res trainer :=
  wk ← getitem (w t) k;
  wsk ← getitem (w_sparse t) k;
  p ← predict wk wsk (X o) (X_sparse o) (store t);
  predictions ← setitem (predictions t) k p;
  yk ← getitem (Y o) k;
  h ← update alpha wk wsk (X o) (X_sparse o) p yk (store t);
  Ok {| store := h; w := w t; w_sparse := w_sparse t;
        predictions := predictions; ctr := ctr t |}.

Definition train_observation (alpha : F) (o : gen_state) (t : trainer) : res trainer :=
  t ← for_each (train_label alpha o) (range K) t;
  Ok {| store := store t; w := w t; w_sparse := w_sparse t;
        predictions := predictions t; ctr := ctr t + 1 |}.

(** The training cell.  The loop leaves by [break] when the wall clock has
    passed [training_time]; [feed] is the list of changes that arrive before
    that. *)
Fixpoint training_loop (alpha : F) (feed : list change) (g : gen_state) (t : trainer)
    : res trainer :=
  match feed with
  | [] => Ok t
  | el :: feed' =>
      g' ← get_data_step g el;
      t' ← train_observation alpha g' t;
      training_loop alpha feed' g' t'
  end.

(** ** Evaluation *)

(** [itertools.product(l, repeat=n)] *)
Fixpoint product (l : list Z) (n : nat) : list (list Z) :=
  match n with
  | O => [[]]
  | S n' => concat (map (fun a => map (cons a) (product l n')) l)
  end.

(** [{c: c_i for c_i, c in enumerate(product([0, 1], repeat=3))}] *)
Definition classes : gmap (list Z) Z :=
  foldl (fun m '(c_i, c) => <[c := c_i]> m) ∅ (enumerate (product [0; 1] 3)).

Definition classes_getitem (c : list Z) : res Z :=
  match classes !! c with
  | Some c_i => Ok c_i
  | None => Raise KeyError
  end.

Record evaluator : Type := {
  cm_store : heap Z;
  confusion_matrix : list loc;
  predicted : list Z;
  test_ctr : Z
}.

Definition evaluator_init : evaluator :=
  let n := size classes in
  let '(rows, h) := alloc_rows n (replicate n 0) [] in
  {| cm_store := h; confusion_matrix := rows; predicted := [0; 0; 0]; test_ctr := 0 |}.

Definition eval_label (t : trainer) (o : gen_state) (e : evaluator) (k : Z) : res evaluator :=
  wk ← getitem (w t) k;
  wsk ← getitem (w_sparse t) k;
  p ← predict wk wsk (X o) (X_sparse o) (store t);
  predicted ← setitem (predicted e) k (if flt lit_half p then 1 else 0);
  Ok {| cm_store := cm_store e; confusion_matrix := confusion_matrix e;
        predicted := predicted; test_ctr := test_ctr e |}.

Definition eval_observation (t : trainer) (o : gen_state) (e : evaluator) : res evaluator :=
  e ← for_each (eval_label t o) (range K) e;
  i ← classes_getitem (Y o);
  j ← classes_getitem (predicted e);
  row ← getitem (confusion_matrix e) i;
  cell ← getitem (cm_store e !!! row) j;
  cells ← setitem (cm_store e !!! row) j (cell + 1);
  Ok {| cm_store := <[row := cells]> (cm_store e); confusion_matrix := confusion_matrix e;
        predicted := predicted e; test_ctr := test_ctr e + 1 |}.

Fixpoint evaluation_loop (no_test : Z) (t : trainer) (feed : list change) (g : gen_state)
    (e : evaluator) : res evaluator :=
  match feed with
  | [] => Ok e
  | el :: feed' =>
      g' ← get_data_step g el;
      e' ← eval_observation t g' e;
      if bool_decide (test_ctr e' >= no_test) then Ok e'
      else evaluation_loop no_test t feed' g' e'
  end.

End Notebook.

(** ** Observables of the statements below *)

#[global] Instance res_fmap : FMap res := fun A B f m =>
  match m with
  | Ok a => Ok (f a)
  | Raise e => Raise e
  end.


(** The dot product as the specification reads it: the dense products plus
    the sparse weight of every distinct index of [x_sparse], once. *)
Definition wTx_one_hot {F : Type} `{PyFloat F} (w w_sparse : loc) (x : list F)
    (x_sparse : list Z) (h : heap F) : res F :=
  wTx w w_sparse x (remove_dups x_sparse) h.

#[global] Instance PyFloat_inhabited {F : Type} `{PyFloat F} : Inhabited F := populate lit_0.

(** The two loops of [update] on the rows they mutate. *)
Definition update_dense_step {F : Type} `{PyFloat F} (alpha p : F) (y : Z)
    (row : list F) (iv : Z * F) : res (list F) :=
  let '(i, val) := iv in
  wi ← getitem row i;
  fy ← float_of_int y;
  setitem row i (fadd wi (fmul (fmul (fsub fy p) alpha) val)).

Definition update_dense_row {F : Type} `{PyFloat F} (alpha p : F) (y : Z) (x : list F)
    (row : list F) : res (list F) :=
  for_each (update_dense_step alpha p y) (enumerate x) row.

Definition update_sparse_step {F : Type} `{PyFloat F} (alpha p : F) (y : Z)
    (row : list F) (i : Z) : res (list F) :=
  wi ← getitem row i;
  fy ← float_of_int y;
  setitem row i (fadd wi (fmul (fsub fy p) alpha)).

Definition update_sparse_row {F : Type} `{PyFloat F} (alpha p : F) (y : Z)
    (x_sparse : list Z) (row : list F) : res (list F) :=
  for_each (update_sparse_step alpha p y) x_sparse row.

(** How often index [j] occurs in [x_sparse]. *)
Definition occurrences (j : nat) (x_sparse : list Z) : nat :=
  length (filter (fun i => Z.to_nat i = j) x_sparse).

(** The rows of a trainer are distinct objects of its store. *)
Definition well_formed {F : Type} (t : @trainer F) : Prop :=
  NoDup (w t ++ w_sparse t)
  /\ Forall (fun l => (l < length (store t))%nat) (w t ++ w_sparse t).

(** The dense and the sparse weight vector of label [k]. *)
Definition label_rows {F : Type} (t : @trainer F) (k : nat) : option (list F * list F) :=
  wk ← w t !! k;
  wsk ← w_sparse t !! k;
  Some (store t !!! wk, store t !!! wsk).

(** [predict] then [update] for one label on its own: a store that holds the
    label's two weight vectors and nothing else. *)
Definition single_label {F : Type} `{PyFloat F} (alpha : F) (x : list F) (x_sparse : list Z)
    (y : Z) (wl wsl : list F) : res (heap F) :=
  p ← predict 0%nat 1%nat x x_sparse [wl; wsl];
  update alpha 0%nat 1%nat x x_sparse p y [wl; wsl].


(** The dot product as [predict] clips it. *)
Definition clip {F : Type} `{PyFloat F} (d : F) : F :=
  py_min (py_max d (fneg lit_100)) lit_100.

(** [confusion_matrix[i][j]] and the sum of all entries. *)
Definition cell (e : evaluator) (i j : nat) : Z :=
  (cm_store e !!! (confusion_matrix e !!! i)) !!! j.

Definition sum_Z (l : list Z) : Z := foldr Z.add 0 l.

Definition cm_total (e : evaluator) : Z :=
  sum_Z (map (fun row => sum_Z (cm_store e !!! row)) (confusion_matrix e)).



(** A small trainer (six sparse weights per label) and an observation. *)
Definition small_trainer : @trainer float := {|
  store := [[0; 0]; [0; 0]; [0; 0];
            [0; 0; 0; 0; 0; 0]; [0; 0; 0; 0; 0; 0]; [0; 0; 0; 0; 0; 0]]%float;
  w := [0; 1; 2]%nat;
  w_sparse := [3; 4; 5]%nat;
  predictions := [0; 0; 0]%float;
  ctr := 0
|}.

Definition small_observation : @gen_state float := {|
  length_n := 1;
  length_mean := 5%float;
  length_M2 := 50%float;
  X := [1; 0x1.6a09e667f3bccp-1]%float;
  X_sparse := [5; 5; 2];
  Y := [0; 1; 0]
|}.

(** A change whose sizes differ by [delta]; the other fields are empty. *)
Definition change_of_delta (delta : Z) : change := {|
  newlen := delta; oldlen := 0;
  parsedcomment := ""; user := ""; title := "";
  bot := None; minor := None; new := None
|}.

(** ** The axis labels of the confusion matrix plot *)

(** A list comprehension whose element expression may raise. *)
Fixpoint comprehension {A B : Type} (f : A -> res B) (l : list A) : res (list B) :=
  match l with
  | [] => Ok []
  | a :: l' => b ← f a; bs ← comprehension f l'; Ok (b :: bs)
  end.

(** [{v: k for k, v in classes.iteritems()}] *)
Definition classes_inverse : gmap Z (list Z) :=
  foldl (fun m '(k, v) => <[v := k]> m) ∅ (map_to_list classes).

(** [labels = [{...}[i] for i in range(len(classes))]] *)
Definition labels : res (list (list Z)) :=
  comprehension (fun i => match classes_inverse !! i with
                          | Some c => Ok c
                          | None => Raise KeyError
                          end)
                (range (Z.of_nat (size classes))).

(** ** The topic notebook: dropping stop words

    The cells [is_stopword = lambda w: ...] and [articles_unfurled] of the
    notebook on topic discovery.  The stop word list of nltk, [unicode.lower]
    and [encode('utf-8')] are outside the repository and are parameters. *)

Section Topics.

Variable stopwords : list string.
Variable lower : string -> string.
Variable bytes : Type.
Variable encode : string -> bytes.

Definition is_stopword (w : string) : bool :=
  bool_decide (String.length w < 4)%nat || bool_decide (w ∈ stopwords).

(** The body of [for article in articles]. *)
Definition unfurl (article : list (list string)) : list bytes :=
  foldl (fun this_article sentence =>
           this_article
           ++ map (fun token => encode (lower token))
                  (filter (fun token => is_stopword token = false) sentence))
        [] article.

Definition articles_unfurled (articles : list (list (list string))) : list (list bytes) :=
  map unfurl articles.

End Topics.

(** ** Observables of the further properties *)


(** Which exception each float operation raises; [0] and [1] convert. *)
Class PyFloatLaws (F : Type) `{PyFloat F} : Prop := {
  float_of_int_raises : forall z e, float_of_int z = Raise e -> e = OverflowError;
  float_of_int_bit : forall z, 0 <= z <= 1 -> exists f, float_of_int z = Ok f;
  fdiv_raises : forall a b e, fdiv a b = Raise e -> e = ZeroDivisionError;
  math_sqrt_raises : forall a e, math_sqrt a = Raise e -> e = ValueError;
  math_exp_raises : forall a e, math_exp a = Raise e -> e = OverflowError
}.

(** The shape of what the generator holds and yields: the bias and the
    length, three sparse indices below [D_sparse], three labels 0 or 1. *)
Definition observation_shape {F : Type} `{PyFloat F} (o : @gen_state F) : Prop :=
  (exists x1, X o = [lit_1; x1])
  /\ length (X_sparse o) = 3%nat
  /\ Forall (fun i => 0 <= i < D_sparse) (X_sparse o)
  /\ length (Y o) = 3%nat
  /\ Forall (fun y => 0 <= y <= 1) (Y o).


(** The raw lengths [abs(newlen - oldlen)] of a feed. *)
Definition raw_lengths (feed : list change) : list Z :=
  map (fun el => Z.abs (newlen el - oldlen el)) feed.

(** Sums of reals, and the sum of the squared deviations of [vs] from [m]. *)
Definition sum_R (l : list R) : R := foldr Rplus 0%R l.

Definition squared_deviations (m : R) (vs : list Z) : R :=
  sum_R (map (fun v => ((IZR v - m) * (IZR v - m))%R) vs).

(** The statistics an observation carries in exact arithmetic, for the raw
    lengths [ys] up to and including its own: the count, and the mean and
    the squared deviations of [0 :: ys]. *)
Definition exact_statistics (ys : list Z) (o : @gen_state R) : Prop :=
  length_n o = Z.of_nat (length ys)
  /\ length_mean o = (IZR (sum_Z ys) / IZR (Z.of_nat (length ys) + 1))%R
  /\ length_M2 o = squared_deviations (length_mean o) (0 :: ys).

(** The normalized length of an observation with raw length [x] in exact
    arithmetic. *)
Definition exact_normalized (ys : list Z) (x : Z) (o : @gen_state R) : Prop :=
  exists v : R,
    X o = [1%R; v]
    /\ let std := sqrt (length_M2 o / IZR (length_n o)) in
       (Forall (eq 0) ys /\ std = 0%R /\ x = 0 /\ v = 0%R)
       \/ (~ Forall (eq 0) ys /\ (0 < std)%R /\ v = ((IZR x - length_mean o) / std)%R).



(** * Properties *)

(** ** Results and loops *)

Lemma bind_Ok_inv {A B : Type} (m : res A) (k : A -> res B) (b : B) :
  m ≫= k = Ok b -> exists a, m = Ok a /\ k a = Ok b.
Proof. destruct m as [a|e]; simpl; [eauto | discriminate]. Qed.

Ltac inv_bind H :=
  let a := fresh "a" in
  let Ha := fresh "E" in
  apply bind_Ok_inv in H; destruct H as (a & Ha & H).

(** ** Indexing *)

Lemma py_index_nonneg {A : Type} (l : list A) (i : Z) :
  0 <= i < Z.of_nat (length l) -> py_index l i = Ok (Z.to_nat i).
Proof. intros Hi. unfold py_index. rewrite bool_decide_eq_true_2; auto. Qed.

Lemma getitem_nonneg {A : Type} (l : list A) (i : nat) (a : A) :
  l !! i = Some a -> getitem l (Z.of_nat i) = Ok a.
Proof.
  intros Hl. unfold getitem. rewrite py_index_nonneg.
  - simpl. rewrite Nat2Z.id, Hl. reflexivity.
  - apply lookup_lt_Some in Hl. lia.
Qed.

Lemma setitem_nonneg {A : Type} (l : list A) (i : nat) (a : A) :
  (i < length l)%nat -> setitem l (Z.of_nat i) a = Ok (<[i := a]> l).
Proof.
  intros Hi. unfold setitem. rewrite py_index_nonneg by lia.
  simpl. rewrite Nat2Z.id. reflexivity.
Qed.

(** ** The extractor *)

Section Extractor.

Context {F : Type} `{PyFloat F}.
Variable hash : string -> Z.


Lemma setitem3 {A : Type} (a b c v0 v1 v2 : A) (l0 l1 l2 : list A) :
  setitem [a; b; c] 0 v0 = Ok l0 ->
  setitem l0 1 v1 = Ok l1 ->
  setitem l1 2 v2 = Ok l2 ->
  l2 = [v0; v1; v2].
Proof.
  intros H0. injection H0 as <-. intros H1. injection H1 as <-.
  intros H2. injection H2 as <-. reflexivity.
Qed.

Lemma get_data_step_lists (g g' : gen_state) (el : change) :
  get_data_step hash g el = Ok g' ->
  length (X_sparse g) = 3%nat -> length (Y g) = 3%nat ->
  X_sparse g' =
    [Z.abs (hash (String.append "comment_" (parsedcomment el))) `mod` D_sparse;
     Z.abs (hash (String.append "username_" (user el))) `mod` D_sparse;
     Z.abs (hash (String.append "title_" (title el))) `mod` D_sparse]
  /\ Y g' = [flag (bot el); flag (minor el); flag (new el)].
Proof.
  unfold get_data_step. intros Hs Hxs Hy.
  destruct (X_sparse g) as [|a [|b [|c [|]]]]; try discriminate.
  destruct (Y g) as [|ya [|yb [|yc [|]]]]; try discriminate.
  inv_bind Hs. destruct a0 as [[mean std] M2].
  inv_bind Hs. inv_bind Hs.
  inv_bind Hs. inv_bind Hs. inv_bind Hs.
  inv_bind Hs. inv_bind Hs. inv_bind Hs.
  injection Hs as <-. simpl. split; eapply setitem3; eassumption.
Qed.

Lemma get_data_from_Forall2 (P : change -> gen_state -> Prop) (I : gen_state -> Prop) :
  (forall g el g', I g -> get_data_step hash g el = Ok g' -> I g' /\ P el g') ->
  forall feed g obs, I g -> get_data_from hash g feed = Ok obs -> Forall2 P feed obs.
Proof.
  intros Hstep feed. induction feed as [|el feed IH]; intros g obs Hg Hrun; simpl in Hrun.
  - injection Hrun as <-. constructor.
  - inv_bind Hrun. inv_bind Hrun. injection Hrun as <-.
    destruct (Hstep _ _ _ Hg E) as [Hg' HP]. constructor; eauto.
Qed.

End Extractor.

(** C8.  The sparse indices of every observation the generator yields are
    [abs(hash(tag + string)) % D_sparse] of that observation's own comment,
    user name and title: a function of the tagged string alone (whatever the
    running statistics and the rest of the feed are), and every one of them
    lies in [0, D_sparse) with D_sparse = 2^18. *)
Theorem sparse_index_function_of_string_in_range
    {F : Type} `{PyFloat F} (hash : string -> Z) (feed : list change) (obs : list gen_state) :
  get_data hash feed = Ok obs ->
  D_sparse = 2 ^ 18
  /\ Forall2 (fun el g =>
       X_sparse g =
         [Z.abs (hash (String.append "comment_" (parsedcomment el))) `mod` 2 ^ 18;
          Z.abs (hash (String.append "username_" (user el))) `mod` 2 ^ 18;
          Z.abs (hash (String.append "title_" (title el))) `mod` 2 ^ 18]
       /\ Forall (fun i => 0 <= i < 2 ^ 18) (X_sparse g)) feed obs.
Proof.
  intros Hrun. split; [reflexivity|].
  apply (get_data_from_Forall2 hash _
           (fun g => length (X_sparse g) = 3%nat /\ length (Y g) = 3%nat))
    with (g := get_data_init) (obs := obs); [| split; reflexivity | exact Hrun].
  intros g el g' [Hxs Hy] Hstep.
  destruct (get_data_step_lists hash g g' el Hstep Hxs Hy) as [-> ->].
  repeat split.
  repeat constructor; apply Z.mod_pos_bound; reflexivity.
Qed.

Lemma sparse_index_function_of_string_in_range_witness :
  exists obs : list (@gen_state float),
    get_data (fun s => Z.of_nat (String.length s) - 20)
      [change_of_delta 10; change_of_delta (-10)] = Ok obs
    /\ D_sparse = 2 ^ 18
    /\ Forall2 (fun el g =>
         X_sparse g =
           [Z.abs (Z.of_nat (String.length (String.append "comment_" (parsedcomment el))) - 20)
              `mod` 2 ^ 18;
            Z.abs (Z.of_nat (String.length (String.append "username_" (user el))) - 20)
              `mod` 2 ^ 18;
            Z.abs (Z.of_nat (String.length (String.append "title_" (title el))) - 20)
              `mod` 2 ^ 18]
         /\ Forall (fun i => 0 <= i < 2 ^ 18) (X_sparse g))
       [change_of_delta 10; change_of_delta (-10)] obs.
Proof.
  eexists. split; [vm_compute; reflexivity|].
  apply (sparse_index_function_of_string_in_range
           (fun s => Z.of_nat (String.length s) - 20)
           [change_of_delta 10; change_of_delta (-10)]).
  reflexivity.
Defined.

(** C1.  The first observation of a fresh generator, a change of 10
    characters.  [get_data] has already counted the observation
    ([length_n] is 1) when it calls [get_length_statistics], which counts it
    again: the statistics are those of Welford's step for n = 2 (mean 5,
    M2 50, standard deviation sqrt 50) and the feature is 5 / sqrt 50,
    where Welford's first step (the same function entered with n = 0) gives
    mean 10 and standard deviation 0. *)
Theorem first_observation_counted_twice
    (hash : string -> Z) (c u t : string) (b m n : option string) :
  let el := {| newlen := 10; oldlen := 0; parsedcomment := c; user := u; title := t;
               bot := b; minor := m; new := n |} in
  (exists g : @gen_state float,
      get_data_step hash get_data_init el = Ok g
      /\ length_n g = 1
      /\ length_mean g = 5%float
      /\ length_M2 g = 50%float
      /\ X g = [1%float; 0x1.6a09e667f3bccp-1%float])
  /\ get_length_statistics 10 1 0%float 0%float
     = Ok (5%float, 0x1.c48c6001f0ac0p+2%float, 50%float)
  /\ get_length_statistics 10 0 0%float 0%float = Ok (10%float, 0%float, 0%float).
Proof.
  intros el. split; [|split]; [| vm_compute; reflexivity | vm_compute; reflexivity].
  eexists. split; [reflexivity|]. repeat split.
Qed.


Lemma setitem_lookup {A : Type} (l l' : list A) (i : Z) (a : A) :
  0 <= i -> setitem l i a = Ok l' -> l' !! Z.to_nat i = Some a.
Proof.
  intros Hi. unfold setitem, py_index.
  case_bool_decide; [|case_bool_decide; [lia | discriminate]].
  simpl. intros [= <-]. apply list_lookup_insert_eq. lia.
Qed.





(** ** The classifier *)

Lemma getitem_in_range {A : Type} `{Inhabited A} (l : list A) (i : Z) :
  0 <= i < Z.of_nat (length l) -> getitem l i = Ok (l !!! Z.to_nat i).
Proof.
  intros Hi. rewrite <- (Z2Nat.id i) at 1 by lia.
  apply getitem_nonneg. apply list_lookup_lookup_total_lt. lia.
Qed.

Lemma setitem_in_range {A : Type} (l : list A) (i : Z) (a : A) :
  0 <= i < Z.of_nat (length l) -> setitem l i a = Ok (<[Z.to_nat i := a]> l).
Proof.
  intros Hi. rewrite <- (Z2Nat.id i) at 1 by lia.
  apply setitem_nonneg. lia.
Qed.

Lemma list_insert_as_alter {A : Type} `{Inhabited A} (f : A -> A) (l : list A) (n : nat) :
  <[n := f (l !!! n)]> l = alter f n l.
Proof.
  revert n. induction l as [|a l IH]; intros [|n]; simpl; try reflexivity.
  f_equal. apply IH.
Qed.

Lemma remove_dups_NoDup {A : Type} `{EqDecision A} (l : list A) :
  NoDup l -> remove_dups l = l.
Proof.
  induction 1 as [|a l Hnotin _ IH]; simpl; [reflexivity|].
  destruct (decide_rel elem_of a l) as [Hin|_]; [contradiction|]. f_equal. exact IH.
Qed.

Section Classifier.

Context {F : Type} `{PyFloat F}.

Lemma dense_dot_loop (row x : list F) (k : nat) (acc : F) :
  (k + length x <= length row)%nat ->
  for_each (fun wTx '(i, val) => wi ← getitem row i; Ok (fadd wTx (fmul wi val)))
    (imap (fun i a => (Z.of_nat (k + i), a)) x) acc
  = Ok (foldl (fun acc '(wi, xi) => fadd acc (fmul wi xi)) acc (zip (drop k row) x)).
Proof.
  revert k acc. induction x as [|a x IH]; intros k acc Hlen.
  - simpl. rewrite zip_with_nil_r. reflexivity.
  - rewrite imap_cons. simpl in Hlen.
    destruct (lookup_lt_is_Some_2 row k ltac:(lia)) as [wi Hwi].
    cbn [for_each]. rewrite Nat.add_0_r, (getitem_nonneg _ _ _ Hwi).
    rewrite (drop_S _ _ _ Hwi). cbn [mbind res_bind zip zip_with foldl].
    rewrite <- (IH (S k)) by lia. f_equal.
    apply imap_ext. intros i b _. simpl. do 2 f_equal. lia.
Qed.

Lemma sparse_dot_loop (row : list F) (x_sparse : list Z) (acc : F) :
  Forall (fun i => 0 <= i < Z.of_nat (length row)) x_sparse ->
  for_each (fun wTx i => wi ← getitem row i; Ok (fadd wTx wi)) x_sparse acc
  = Ok (foldl (fun acc i => fadd acc (row !!! Z.to_nat i)) acc x_sparse).
Proof.
  intros Hall. revert acc. induction Hall as [|i l Hi _ IH]; intros acc; simpl.
  - reflexivity.
  - rewrite (getitem_in_range _ _ Hi). simpl. apply IH.
Qed.

Lemma wTx_sum (w w_sparse : loc) (x : list F) (x_sparse : list Z) (h : heap F) :
  (length x <= length (h !!! w))%nat ->
  Forall (fun i => 0 <= i < Z.of_nat (length (h !!! w_sparse))) x_sparse ->
  wTx w w_sparse x x_sparse h
  = Ok (foldl (fun acc i => fadd acc ((h !!! w_sparse) !!! Z.to_nat i))
          (foldl (fun acc '(wi, xi) => fadd acc (fmul wi xi)) lit_0 (zip (h !!! w) x))
          x_sparse).
Proof.
  intros Hx Hxs. unfold wTx, enumerate.
  rewrite (dense_dot_loop (h !!! w) x 0 lit_0) by (simpl; lia).
  simpl. apply sparse_dot_loop. exact Hxs.
Qed.

(** C3, amended.  The dot product of [predict] is the sum of the dense
    products [w[i] * x[i]] plus the sparse weight at every position of the
    sparse index list, in list order: an index that occurs at two or three
    positions contributes its weight two or three times.  When the indices
    are pairwise distinct this is the one-hot sum of the specification. *)
Theorem wTx_counts_every_position
    (w w_sparse : loc) (x : list F) (x_sparse : list Z) (h : heap F) :
  (length x <= length (h !!! w))%nat ->
  Forall (fun i => 0 <= i < Z.of_nat (length (h !!! w_sparse))) x_sparse ->
  wTx w w_sparse x x_sparse h
  = Ok (foldl (fun acc i => fadd acc ((h !!! w_sparse) !!! Z.to_nat i))
          (foldl (fun acc '(wi, xi) => fadd acc (fmul wi xi)) lit_0 (zip (h !!! w) x))
          x_sparse)
  /\ (NoDup x_sparse ->
      wTx_one_hot w w_sparse x x_sparse h = wTx w w_sparse x x_sparse h).
Proof.
  intros Hx Hxs. split; [exact (wTx_sum w w_sparse x x_sparse h Hx Hxs)|].
  intros Hnd. unfold wTx_one_hot. rewrite (remove_dups_NoDup _ Hnd). reflexivity.
Qed.

End Classifier.

(** C3, as stated: when the three tagged strings hash to the same index
    (here 5, the sparse weight there being 1) the dot product of [predict]
    is 3, while the one-hot sum over the distinct indices is 1. *)
Lemma wTx_collision_counted_three_times :
  X_sparse <$> get_data_step (F := float) (fun _ => 5) get_data_init (change_of_delta 10)
  = Ok [5; 5; 5]
  /\ wTx 0%nat 1%nat [1%float; 0%float] [5; 5; 5]
       [[0%float; 0%float]; [0%float; 0%float; 0%float; 0%float; 0%float; 1%float]]
     = Ok 3%float
  /\ wTx_one_hot 0%nat 1%nat [1%float; 0%float] [5; 5; 5]
       [[0%float; 0%float]; [0%float; 0%float; 0%float; 0%float; 0%float; 1%float]]
     = Ok 1%float.
Proof. vm_compute. repeat split. Qed.

Lemma wTx_counts_every_position_witness :
  let h := [[0%float; 0%float]; [0%float; 0%float; 0%float; 0%float; 0%float; 1%float]] in
  wTx 0%nat 1%nat [1%float; 0%float] [5; 5; 5] h
  = Ok (foldl (fun acc i => fadd acc ((h !!! 1%nat) !!! Z.to_nat i))
          (foldl (fun acc '(wi, xi) => fadd acc (fmul wi xi)) lit_0
             (zip (h !!! 0%nat) [1%float; 0%float]))
          [5; 5; 5])
  /\ (NoDup [5; 5; 5] ->
      wTx_one_hot 0%nat 1%nat [1%float; 0%float] [5; 5; 5] h
      = wTx 0%nat 1%nat [1%float; 0%float] [5; 5; 5] h).
Proof.
  intros h. apply (wTx_counts_every_position 0%nat 1%nat [1%float; 0%float] [5; 5; 5] h).
  - simpl. lia.
  - repeat constructor; simpl; lia.
Defined.

(** ** [update] on the store and on the rows *)

Lemma for_each_ext {A S : Type} (body1 body2 : S -> A -> res S) (l : list A) (s : S) :
  (forall s a, body1 s a = body2 s a) -> for_each body1 l s = for_each body2 l s.
Proof.
  intros Hext. revert s. induction l as [|a l IH]; intros s; simpl; [reflexivity|].
  rewrite Hext. destruct (body2 s a); simpl; auto.
Qed.

(** A loop that rewrites one row of the store is the loop on that row. *)
Lemma for_each_row {A B : Type} (body : list B -> A -> res (list B)) (w : loc)
    (l : list A) (h : heap B) :
  (w < length h)%nat ->
  for_each (fun h a => row ← body (h !!! w) a; Ok (<[w := row]> h)) l h
  = row ← for_each body l (h !!! w); Ok (<[w := row]> h).
Proof.
  revert h. induction l as [|a l IH]; intros h Hw; cbn [for_each mbind res_bind].
  - rewrite list_insert_id; [reflexivity|].
    apply list_lookup_lookup_total_lt. exact Hw.
  - destruct (body (h !!! w) a) as [row|e]; cbn [mbind res_bind]; [|reflexivity].
    rewrite IH by (rewrite length_insert; exact Hw).
    rewrite list_lookup_total_insert_eq by exact Hw.
    destruct (for_each body l row) as [row'|e]; cbn [mbind res_bind]; [|reflexivity].
    rewrite list_insert_insert_eq. reflexivity.
Qed.

Section Update.

Context {F : Type} `{PyFloat F}.

Lemma update_on_rows (alpha p : F) (y : Z) (w w_sparse : loc) (x : list F)
    (x_sparse : list Z) (h : heap F) :
  (w < length h)%nat -> (w_sparse < length h)%nat ->
  update alpha w w_sparse x x_sparse p y h
  = row ← update_dense_row alpha p y x (h !!! w);
    row_sparse ← update_sparse_row alpha p y x_sparse (<[w := row]> h !!! w_sparse);
    Ok (<[w_sparse := row_sparse]> (<[w := row]> h)).
Proof.
  intros Hw Hws. unfold update, update_dense_row, update_sparse_row.
  rewrite (for_each_ext _ (fun h a => row ← update_dense_step alpha p y (h !!! w) a;
                                      Ok (<[w := row]> h))).
  2:{ intros h0 [i val]. unfold update_dense_step. cbn [mbind res_bind].
      destruct (getitem (h0 !!! w) i); [|reflexivity].
      destruct (float_of_int y); reflexivity. }
  rewrite (for_each_row (update_dense_step alpha p y) w (enumerate x) h Hw).
  destruct (for_each (update_dense_step alpha p y) (enumerate x) (h !!! w)) as [row|e];
    cbn [mbind res_bind]; [|reflexivity].
  rewrite (for_each_ext _ (fun h a => row ← update_sparse_step alpha p y (h !!! w_sparse) a;
                                      Ok (<[w_sparse := row]> h))).
  2:{ intros h0 i. unfold update_sparse_step. cbn [mbind res_bind].
      destruct (getitem (h0 !!! w_sparse) i); [|reflexivity].
      destruct (float_of_int y); reflexivity. }
  rewrite (for_each_row (update_sparse_step alpha p y) w_sparse x_sparse).
  - reflexivity.
  - rewrite length_insert. exact Hws.
Qed.

End Update.

Section UpdateRows.

Context {F : Type} `{PyFloat F}.

Variables (alpha p fy : F) (y : Z).
Hypothesis Hy : float_of_int y = Ok fy.

Lemma update_dense_step_at (row : list F) (k : nat) (wk a : F) :
  row !! k = Some wk ->
  update_dense_step alpha p y row (Z.of_nat k, a)
  = Ok (<[k := fadd wk (fmul (fmul (fsub fy p) alpha) a)]> row).
Proof.
  intros Hwk. unfold update_dense_step. rewrite (getitem_nonneg _ _ _ Hwk).
  cbn [mbind res_bind]. rewrite Hy. cbn [mbind res_bind].
  apply setitem_nonneg. apply lookup_lt_Some in Hwk. exact Hwk.
Qed.

Lemma update_sparse_step_at (row : list F) (i : Z) :
  0 <= i < Z.of_nat (length row) ->
  update_sparse_step alpha p y row i
  = Ok (alter (fun v => fadd v (fmul (fsub fy p) alpha)) (Z.to_nat i) row).
Proof.
  intros Hi. unfold update_sparse_step. rewrite (getitem_in_range _ _ Hi).
  cbn [mbind res_bind]. rewrite Hy. cbn [mbind res_bind].
  rewrite (setitem_in_range _ _ _ Hi).
  rewrite (list_insert_as_alter (fun v => fadd v (fmul (fsub fy p) alpha))). reflexivity.
Qed.

Lemma update_dense_row_from (x : list F) (k : nat) (row : list F) :
  (k + length x <= length row)%nat ->
  exists row',
    for_each (update_dense_step alpha p y)
             (imap (fun i a => (Z.of_nat (k + i), a)) x) row = Ok row'
    /\ length row' = length row
    /\ forall j,
         row' !! j =
           if decide (k <= j)%nat
           then match x !! (j - k)%nat with
                | Some xi => (fun wi => fadd wi (fmul (fmul (fsub fy p) alpha) xi)) <$> row !! j
                | None => row !! j
                end
           else row !! j.
Proof.
  revert k row. induction x as [|a x IH]; intros k row Hlen.
  - exists row. split; [reflexivity|]. split; [reflexivity|].
    intros j. destruct (decide (k <= j)%nat); reflexivity.
  - rewrite imap_cons. simpl in Hlen.
    destruct (lookup_lt_is_Some_2 row k ltac:(lia)) as [wk Hwk].
    cbn [for_each]. rewrite Nat.add_0_r, (update_dense_step_at _ _ _ _ Hwk).
    cbn [mbind res_bind].
    destruct (IH (S k) (<[k := fadd wk (fmul (fmul (fsub fy p) alpha) a)]> row))
      as (row' & Hrun & Hlen' & Hrow'); [rewrite length_insert; lia|].
    exists row'. split; [|split].
    + rewrite <- Hrun. f_equal. apply imap_ext. intros i b _. simpl. do 2 f_equal. lia.
    + rewrite Hlen', length_insert. reflexivity.
    + intros j. rewrite Hrow'.
      destruct (decide (S k <= j)%nat) as [Hj|Hj].
      * rewrite decide_True by lia.
        replace (j - k)%nat with (S (j - S k)) by lia. cbn [lookup list_lookup].
        rewrite list_lookup_insert_ne by lia. reflexivity.
      * destruct (decide (k <= j)%nat) as [Hk|Hk].
        -- assert (j = k) as -> by lia. rewrite Nat.sub_diag. cbn [lookup list_lookup].
           rewrite list_lookup_insert_eq by lia. rewrite Hwk. reflexivity.
        -- rewrite list_lookup_insert_ne by lia. reflexivity.
Qed.

Lemma update_dense_row_spec (x row : list F) :
  (length x <= length row)%nat ->
  exists row',
    update_dense_row alpha p y x row = Ok row'
    /\ length row' = length row
    /\ forall j,
         row' !! j =
           match x !! j with
           | Some xi => (fun wi => fadd wi (fmul (fmul (fsub fy p) alpha) xi)) <$> row !! j
           | None => row !! j
           end.
Proof.
  intros Hlen. destruct (update_dense_row_from x 0 row Hlen) as (row' & Hrun & Hl & Hrow).
  exists row'. split; [exact Hrun|]. split; [exact Hl|].
  intros j. rewrite Hrow, decide_True by lia. rewrite Nat.sub_0_r. reflexivity.
Qed.

Lemma update_sparse_row_spec (x_sparse : list Z) (row : list F) :
  Forall (fun i => 0 <= i < Z.of_nat (length row)) x_sparse ->
  update_sparse_row alpha p y x_sparse row
  = Ok (foldl (fun row i => alter (fun v => fadd v (fmul (fsub fy p) alpha)) (Z.to_nat i) row)
          row x_sparse).
Proof.
  unfold update_sparse_row. intros Hall. revert row Hall.
  induction x_sparse as [|i l IH]; intros row Hall; [reflexivity|].
  apply Forall_cons in Hall as [Hi Hall].
  cbn [for_each foldl]. rewrite (update_sparse_step_at _ _ Hi). cbn [mbind res_bind].
  apply IH. eapply Forall_impl; [exact Hall|]. intros j Hj. rewrite length_alter. exact Hj.
Qed.

End UpdateRows.

Lemma lookup_foldl_alter {A : Type} (f : A -> A) (x_sparse : list Z) (row : list A) (j : nat) :
  foldl (fun row i => alter f (Z.to_nat i) row) row x_sparse !! j
  = Nat.iter (occurrences j x_sparse) f <$> row !! j.
Proof.
  unfold occurrences. revert row. induction x_sparse as [|i l IH]; intros row; cbn [foldl].
  - destruct (row !! j); reflexivity.
  - rewrite IH, filter_cons. destruct (decide (Z.to_nat i = j)) as [Heq|Hne]; [subst j|].
    + rewrite list_lookup_alter_eq. cbn [length].
      destruct (row !! Z.to_nat i); cbn [fmap option_fmap option_map]; [|reflexivity].
      rewrite Nat.iter_succ_r. reflexivity.
    + rewrite list_lookup_alter_ne by exact Hne. reflexivity.
Qed.

Lemma length_foldl_alter {A : Type} (f : A -> A) (x_sparse : list Z) (row : list A) :
  length (foldl (fun row i => alter f (Z.to_nat i) row) row x_sparse) = length row.
Proof.
  revert row. induction x_sparse as [|i l IH]; intros row; cbn [foldl]; [reflexivity|].
  rewrite IH. apply length_alter.
Qed.

Section UpdateSpec.

Context {F : Type} `{PyFloat F}.

(** What one call of [update] does to the store. *)
Lemma update_spec (alpha p fy : F) (y : Z) (w w_sparse : loc) (x : list F)
    (x_sparse : list Z) (h : heap F) :
  (w < length h)%nat -> (w_sparse < length h)%nat -> w <> w_sparse ->
  (length x <= length (h !!! w))%nat ->
  Forall (fun i => 0 <= i < Z.of_nat (length (h !!! w_sparse))) x_sparse ->
  float_of_int y = Ok fy ->
  exists h',
    update alpha w w_sparse x x_sparse p y h = Ok h'
    /\ length h' = length h
    /\ (forall l, l <> w -> l <> w_sparse -> h' !! l = h !! l)
    /\ length (h' !!! w) = length (h !!! w)
    /\ length (h' !!! w_sparse) = length (h !!! w_sparse)
    /\ (forall i wi,
          (h !!! w) !! i = Some wi ->
          (h' !!! w) !! i
          = Some (match x !! i with
                  | Some xi => fadd wi (fmul (fmul (fsub fy p) alpha) xi)
                  | None => wi
                  end))
    /\ (forall j wj,
          (h !!! w_sparse) !! j = Some wj ->
          (h' !!! w_sparse) !! j
          = Some (Nat.iter (occurrences j x_sparse)
                    (fun v => fadd v (fmul (fsub fy p) alpha)) wj)).
Proof.
  intros Hw Hws Hne Hx Hxs Hy.
  rewrite (update_on_rows alpha p y w w_sparse x x_sparse h Hw Hws).
  destruct (update_dense_row_spec alpha p fy y Hy x (h !!! w) Hx) as (row & -> & Hl & Hrow).
  cbn [mbind res_bind].
  rewrite list_lookup_total_insert_ne by exact Hne.
  rewrite (update_sparse_row_spec alpha p fy y Hy x_sparse (h !!! w_sparse) Hxs).
  cbn [mbind res_bind]. eexists. split; [reflexivity|].
  split; [rewrite !length_insert; reflexivity|].
  split; [intros l Hl1 Hl2; rewrite !list_lookup_insert_ne by auto; reflexivity|].
  rewrite list_lookup_total_insert_ne by auto.
  rewrite list_lookup_total_insert_eq by exact Hw.
  rewrite list_lookup_total_insert_eq by (rewrite length_insert; exact Hws).
  split; [exact Hl|]. split; [apply length_foldl_alter|]. split.
  - intros i wi Hwi. rewrite Hrow, Hwi. destruct (x !! i); reflexivity.
  - intros j wj Hwj. rewrite lookup_foldl_alter, Hwj. reflexivity.
Qed.

End UpdateSpec.

(** ** binary64 arithmetic *)

(** The model of [math.exp] at some arguments, as the interpreter prints
    them: [exp(-100.)], [exp(100.)], [exp(1.)], [exp(-40.)], [exp(-0.)];
    the largest argument without overflow and the next double. *)
Example exp64_values :
  B64.exp64 (-100) = 0x1.a8c1f14e2af5dp-145%float
  /\ B64.exp64 100 = 0x1.3494a9b171bf5p+144%float
  /\ B64.exp64 1 = 0x1.5bf0a8b145769p+1%float
  /\ B64.exp64 (-40) = 0x1.39792499b1a24p-58%float
  /\ B64.exp64 (-0) = 1%float
  /\ B64.exp B64.exp_overflow_threshold = Ok 0x1.fffffffffff2ap+1023%float
  /\ B64.exp64 (next_up B64.exp_overflow_threshold) = infinity
  /\ B64.exp (next_up B64.exp_overflow_threshold) = Raise OverflowError.
Proof. vm_compute. repeat split. Qed.




(** ** Training: every label on its own *)

Lemma getitem_nonneg_inv {A : Type} (l : list A) (k : nat) (a : A) :
  getitem l (Z.of_nat k) = Ok a -> l !! k = Some a.
Proof.
  unfold getitem, py_index. case_bool_decide; [|case_bool_decide; [lia|discriminate]].
  cbn [mbind res_bind]. rewrite Nat2Z.id. destruct (l !! k); [|discriminate].
  intros [= <-]. reflexivity.
Qed.


Section Training.

Context {F : Type} `{PyFloat F}.

Lemma predict_local (w w_sparse w' w_sparse' : loc) (x : list F) (x_sparse : list Z)
    (h h' : heap F) :
  h !!! w = h' !!! w' -> h !!! w_sparse = h' !!! w_sparse' ->
  predict w w_sparse x x_sparse h = predict w' w_sparse' x x_sparse h'.
Proof. unfold predict, wTx. intros -> ->. reflexivity. Qed.

Lemma update_rows (alpha p : F) (y : Z) (w w_sparse : loc) (x : list F)
    (x_sparse : list Z) (h h' : heap F) :
  (w < length h)%nat -> (w_sparse < length h)%nat -> w <> w_sparse ->
  update alpha w w_sparse x x_sparse p y h = Ok h' ->
  exists row row_sparse,
    update_dense_row alpha p y x (h !!! w) = Ok row
    /\ update_sparse_row alpha p y x_sparse (h !!! w_sparse) = Ok row_sparse
    /\ h' = <[w_sparse := row_sparse]> (<[w := row]> h).
Proof.
  intros Hw Hws Hne. rewrite (update_on_rows alpha p y w w_sparse x x_sparse h Hw Hws).
  intros Hrun. inv_bind Hrun. inv_bind Hrun. injection Hrun as <-.
  rewrite list_lookup_total_insert_ne in E0 by exact Hne. eauto.
Qed.

Lemma train_label_inv (alpha : F) (o : @gen_state F) (t t' : @trainer F) (k : Z) :
  train_label alpha o t k = Ok t' ->
  exists wk wsk p preds yk h',
    getitem (w t) k = Ok wk
    /\ getitem (w_sparse t) k = Ok wsk
    /\ predict wk wsk (X o) (X_sparse o) (store t) = Ok p
    /\ setitem (predictions t) k p = Ok preds
    /\ getitem (Y o) k = Ok yk
    /\ update alpha wk wsk (X o) (X_sparse o) p yk (store t) = Ok h'
    /\ t' = {| store := h'; w := w t; w_sparse := w_sparse t;
               predictions := preds; ctr := ctr t |}.
Proof.
  unfold train_label. intros Hrun.
  inv_bind Hrun. inv_bind Hrun. inv_bind Hrun. inv_bind Hrun. inv_bind Hrun.
  inv_bind Hrun. injection Hrun as <-.
  repeat eexists; eassumption.
Qed.

Lemma well_formed_rows (t : @trainer F) (k : nat) (wk wsk : loc) :
  well_formed t -> w t !! k = Some wk -> w_sparse t !! k = Some wsk ->
  (wk < length (store t))%nat /\ (wsk < length (store t))%nat /\ wk <> wsk.
Proof.
  intros [Hnd Hlt] Hwk Hwsk.
  apply list_elem_of_lookup_2 in Hwk, Hwsk.
  rewrite Forall_forall in Hlt. apply NoDup_app in Hnd as (_ & Hdisj & _).
  repeat split.
  - apply Hlt. apply elem_of_app. auto.
  - apply Hlt. apply elem_of_app. auto.
  - intros ->. exact (Hdisj _ Hwk Hwsk).
Qed.

Lemma well_formed_other_rows (t : @trainer F) (j k : nat) (wj wsj wk wsk : loc) :
  well_formed t -> j <> k ->
  w t !! j = Some wj -> w_sparse t !! j = Some wsj ->
  w t !! k = Some wk -> w_sparse t !! k = Some wsk ->
  wj <> wk /\ wj <> wsk /\ wsj <> wk /\ wsj <> wsk.
Proof.
  intros [Hnd _] Hjk Hwj Hwsj Hwk Hwsk.
  apply NoDup_app in Hnd as (Hnd1 & Hdisj & Hnd2).
  repeat split; intros ->.
  - exact (Hjk (NoDup_lookup _ _ _ _ Hnd1 Hwj Hwk)).
  - apply list_elem_of_lookup_2 in Hwj, Hwsk. exact (Hdisj _ Hwj Hwsk).
  - apply list_elem_of_lookup_2 in Hwk, Hwsj. exact (Hdisj _ Hwk Hwsj).
  - exact (Hjk (NoDup_lookup _ _ _ _ Hnd2 Hwsj Hwsk)).
Qed.

(** One iteration of [for k in range(K)]. *)
Lemma train_label_spec (alpha : F) (o : @gen_state F) (t t' : @trainer F) (k : nat) :
  well_formed t ->
  train_label alpha o t (Z.of_nat k) = Ok t' ->
  well_formed t' /\ w t' = w t /\ w_sparse t' = w_sparse t
  /\ (forall j, j <> k -> label_rows t' j = label_rows t j)
  /\ exists yk wl wsl wl' wsl',
       getitem (Y o) (Z.of_nat k) = Ok yk
       /\ label_rows t k = Some (wl, wsl)
       /\ single_label alpha (X o) (X_sparse o) yk wl wsl = Ok [wl'; wsl']
       /\ label_rows t' k = Some (wl', wsl').
Proof.
  intros Hwf Hrun.
  destruct (train_label_inv alpha o t t' _ Hrun)
    as (wk & wsk & p & preds & yk & h' & Hwk & Hwsk & Hp & _ & Hyk & Hup & ->).
  apply getitem_nonneg_inv in Hwk, Hwsk.
  destruct (well_formed_rows t k wk wsk Hwf Hwk Hwsk) as (Hlt & Hlts & Hne).
  destruct (update_rows alpha p yk wk wsk _ _ _ _ Hlt Hlts Hne Hup)
    as (row & rs & Hrow & Hrs & ->).
  split; [|split; [reflexivity|split; [reflexivity|split]]].
  - destruct Hwf as [Hnd Hall]. split; [exact Hnd|]. cbn [store w w_sparse].
    rewrite !length_insert. exact Hall.
  - intros j Hjk. unfold label_rows. cbn [store w w_sparse].
    destruct (w t !! j) as [wj|] eqn:Hwj; [|reflexivity].
    destruct (w_sparse t !! j) as [wsj|] eqn:Hwsj; [|reflexivity].
    destruct (well_formed_other_rows t j k wj wsj wk wsk Hwf Hjk Hwj Hwsj Hwk Hwsk)
      as (N1 & N2 & N3 & N4).
    cbn [mbind option_bind]. rewrite !list_lookup_total_insert_ne by auto. reflexivity.
  - exists yk, (store t !!! wk), (store t !!! wsk), row, rs.
    split; [exact Hyk|]. split; [|split].
    + unfold label_rows. rewrite Hwk, Hwsk. reflexivity.
    + unfold single_label.
      rewrite (predict_local 0%nat 1%nat wk wsk _ _ _ (store t)) by reflexivity.
      rewrite Hp. cbn [mbind res_bind].
      rewrite update_on_rows by (cbn [length]; lia).
      change ([store t !!! wk; store t !!! wsk] !!! 0%nat) with (store t !!! wk).
      rewrite Hrow. cbn [mbind res_bind].
      change (<[0%nat := row]> [store t !!! wk; store t !!! wsk] !!! 1%nat)
        with (store t !!! wsk).
      rewrite Hrs. reflexivity.
    + unfold label_rows. cbn [store w w_sparse]. rewrite Hwk, Hwsk.
      cbn [mbind option_bind].
      rewrite list_lookup_total_insert_ne by auto.
      rewrite list_lookup_total_insert_eq by exact Hlt.
      rewrite list_lookup_total_insert_eq by (rewrite length_insert; exact Hlts).
      reflexivity.
Qed.

End Training.

(** One observation of the training loop. *)
Lemma train_observation_spec {F : Type} `{PyFloat F}
    (alpha : F) (o : @gen_state F) (t t' : @trainer F) :
  well_formed t ->
  train_observation alpha o t = Ok t' ->
  well_formed t'
  /\ forall k, (k < 3)%nat ->
       exists yk wl wsl wl' wsl',
         getitem (Y o) (Z.of_nat k) = Ok yk
         /\ label_rows t k = Some (wl, wsl)
         /\ single_label alpha (X o) (X_sparse o) yk wl wsl = Ok [wl'; wsl']
         /\ label_rows t' k = Some (wl', wsl').
Proof.
  intros Hwf Hrun. unfold train_observation in Hrun. inv_bind Hrun.
  injection Hrun as <-.
  change (range K) with [Z.of_nat 0; Z.of_nat 1; Z.of_nat 2] in E.
  cbn [for_each] in E. inv_bind E. inv_bind E. inv_bind E. injection E as ->.
  destruct (train_label_spec alpha o t a0 0 Hwf E0) as (Hwf0 & _ & _ & Hf0 & Hk0).
  destruct (train_label_spec alpha o a0 a1 1 Hwf0 E1) as (Hwf1 & _ & _ & Hf1 & Hk1).
  destruct (train_label_spec alpha o a1 a 2 Hwf1 E2) as (Hwf2 & _ & _ & Hf2 & Hk2).
  split; [exact Hwf2|].
  assert (Hlast : forall k, label_rows
            {| store := store a; w := w a; w_sparse := w_sparse a;
               predictions := predictions a; ctr := ctr a + 1 |} k = label_rows a k)
    by reflexivity.
  intros [|[|[|k]]] Hk; [| | |lia].
  - destruct Hk0 as (yk & wl & wsl & wl' & wsl' & Hy & Hrows & Hone & Hrows').
    exists yk, wl, wsl, wl', wsl'. repeat (split; [assumption|]).
    rewrite Hlast, Hf2, Hf1 by lia. exact Hrows'.
  - destruct Hk1 as (yk & wl & wsl & wl' & wsl' & Hy & Hrows & Hone & Hrows').
    exists yk, wl, wsl, wl', wsl'. split; [assumption|].
    split; [rewrite <- Hf0 by lia; exact Hrows|]. split; [assumption|].
    rewrite Hlast, Hf2 by lia. exact Hrows'.
  - destruct Hk2 as (yk & wl & wsl & wl' & wsl' & Hy & Hrows & Hone & Hrows').
    exists yk, wl, wsl, wl', wsl'. split; [assumption|].
    split; [rewrite <- Hf0, <- Hf1 by lia; exact Hrows|]. split; [assumption|].
    rewrite Hlast. exact Hrows'.
Qed.


Lemma training_loop_well_formed {F : Type} `{PyFloat F} (hash : string -> Z)
    (alpha : F) (feed : list change) (g : @gen_state F) (t t' : @trainer F) :
  well_formed t -> training_loop hash alpha feed g t = Ok t' -> well_formed t'.
Proof.
  revert g t. induction feed as [|el feed IH]; intros g t Hwf Hrun;
    cbn [training_loop] in Hrun.
  - injection Hrun as <-. exact Hwf.
  - inv_bind Hrun. inv_bind Hrun.
    destruct (train_observation_spec alpha a t a0 Hwf E0) as [Hwf' _]. eauto.
Qed.

(** C6.  In a trainer whose rows are distinct objects, as they are from the
    notebook's initialisation on, the predict-then-update call for label
    [k] leaves the weight vectors of every other label as they were, and
    turns label [k]'s vectors into what [predict] and [update] make of these
    two vectors alone with the target [y[k]].  So after the three calls for
    an observation every label's vectors are those of its own classifier,
    stepped once with its own target. *)
Theorem labels_train_independently {F : Type} `{PyFloat F}
    (alpha : F) (o : @gen_state F) (t : @trainer F) :
  well_formed t ->
  (forall (k : nat) (t1 : @trainer F),
     train_label alpha o t (Z.of_nat k) = Ok t1 ->
     (forall j, j <> k -> label_rows t1 j = label_rows t j)
     /\ exists yk wl wsl wl' wsl',
          getitem (Y o) (Z.of_nat k) = Ok yk
          /\ label_rows t k = Some (wl, wsl)
          /\ single_label alpha (X o) (X_sparse o) yk wl wsl = Ok [wl'; wsl']
          /\ label_rows t1 k = Some (wl', wsl'))
  /\ (forall t' : @trainer F,
        train_observation alpha o t = Ok t' ->
        well_formed t'
        /\ forall k, (k < 3)%nat ->
             exists yk wl wsl wl' wsl',
               getitem (Y o) (Z.of_nat k) = Ok yk
               /\ label_rows t k = Some (wl, wsl)
               /\ single_label alpha (X o) (X_sparse o) yk wl wsl = Ok [wl'; wsl']
               /\ label_rows t' k = Some (wl', wsl')).
Proof.
  intros Hwf. split.
  - intros k t1 Hrun.
    destruct (train_label_spec alpha o t t1 k Hwf Hrun) as (_ & _ & _ & Hframe & Hk).
    split; assumption.
  - intros t'. apply train_observation_spec. exact Hwf.
Qed.

Lemma labels_train_independently_witness :
  (exists t', train_observation 0x1p-3%float small_observation small_trainer = Ok t')
  /\ (forall (k : nat) (t1 : @trainer float),
        train_label 0x1p-3%float small_observation small_trainer (Z.of_nat k) = Ok t1 ->
        (forall j, j <> k -> label_rows t1 j = label_rows small_trainer j)
        /\ exists yk wl wsl wl' wsl',
             getitem (Y small_observation) (Z.of_nat k) = Ok yk
             /\ label_rows small_trainer k = Some (wl, wsl)
             /\ single_label 0x1p-3%float (X small_observation) (X_sparse small_observation)
                  yk wl wsl = Ok [wl'; wsl']
             /\ label_rows t1 k = Some (wl', wsl'))
  /\ (forall t' : @trainer float,
        train_observation 0x1p-3%float small_observation small_trainer = Ok t' ->
        well_formed t'
        /\ forall k, (k < 3)%nat ->
             exists yk wl wsl wl' wsl',
               getitem (Y small_observation) (Z.of_nat k) = Ok yk
               /\ label_rows small_trainer k = Some (wl, wsl)
               /\ single_label 0x1p-3%float (X small_observation) (X_sparse small_observation)
                    yk wl wsl = Ok [wl'; wsl']
               /\ label_rows t' k = Some (wl', wsl')).
Proof.
  split; [eexists; vm_compute; reflexivity|].
  apply (labels_train_independently 0x1p-3%float small_observation small_trainer).
  split.
  - apply (bool_decide_unpack _). vm_compute. exact I.
  - repeat constructor; simpl; lia.
Defined.

(** ** binary64: products with zero, sums with zero *)

Lemma b64_finite_cases (x : float) :
  PrimFloat.is_finite x = true ->
  match Prim2SF x with
  | S754_zero _ | S754_finite _ _ _ => True
  | _ => False
  end.
Proof.
  unfold PrimFloat.is_finite, PrimFloat.is_nan, PrimFloat.is_infinity.
  rewrite !FloatAxioms.eqb_spec, abs_spec.
  destruct (Prim2SF x) as [s|s| |s m e]; try exact (fun _ => I).
  - destruct s; vm_compute; discriminate.
  - vm_compute; discriminate.
Qed.


Lemma b64_zero_mul (z v : float) (s : bool) :
  Prim2SF z = S754_zero s -> PrimFloat.is_finite v = true ->
  exists s', Prim2SF (z * v)%float = S754_zero s'.
Proof.
  intros Hz Hv. apply b64_finite_cases in Hv. rewrite mul_spec, Hz.
  destruct (Prim2SF v) as [sv|sv| |sv m e]; try contradiction; simpl; eauto.
Qed.

Lemma b64_add_zero (w z : float) (s : bool) :
  Prim2SF z = S754_zero s -> w <> (-0)%float -> (w + z)%float = w.
Proof.
  intros Hz Hw. apply Prim2SF_inj. rewrite add_spec, Hz.
  destruct (Prim2SF w) as [sw|sw| |sw m e] eqn:E; try reflexivity.
  destruct sw, s; try reflexivity.
  exfalso. apply Hw. rewrite <- (SF2Prim_Prim2SF w), E. reflexivity.
Qed.



(** A zero weight contributes nothing to the dot product. *)
Lemma b64_zero_weight (v : float) :
  PrimFloat.is_finite v = true -> (0 + 0 * v)%float = 0%float.
Proof.
  intros Hv. destruct (b64_zero_mul 0%float v false eq_refl Hv) as [s Hs].
  apply (b64_add_zero 0%float _ s Hs). intros Heq.
  apply (f_equal Prim2SF) in Heq. discriminate Heq.
Qed.

(** ** A zero learning rate, zero weights *)



Lemma dense_dot_zero_weights (x : list float) (n : nat) :
  Forall (fun v => PrimFloat.is_finite v = true) x ->
  foldl (fun acc '(wi, xi) => fadd acc (fmul wi xi)) 0%float (zip (replicate n 0%float) x)
  = 0%float.
Proof.
  intros Hfin. revert n. induction Hfin as [|a x Ha _ IH]; intros [|n];
    cbn [replicate zip zip_with foldl]; try reflexivity.
  cbn [fadd fmul b64]. rewrite (b64_zero_weight a Ha). apply IH.
Qed.

Lemma sparse_dot_zero_weights (x_sparse : list Z) (m : nat) :
  Forall (fun i => 0 <= i < Z.of_nat m) x_sparse ->
  foldl (fun acc i => fadd acc (replicate m 0%float !!! Z.to_nat i)) 0%float x_sparse
  = 0%float.
Proof.
  induction 1 as [|i l Hi _ IH]; cbn [foldl]; [reflexivity|].
  rewrite lookup_total_replicate_2 by lia. exact IH.
Qed.

Lemma predict_zero_weights (w w_sparse : loc) (x : list float) (x_sparse : list Z)
    (h : heap float) (n m : nat) :
  h !!! w = replicate n 0%float -> h !!! w_sparse = replicate m 0%float ->
  (length x <= n)%nat ->
  Forall (fun v => PrimFloat.is_finite v = true) x ->
  Forall (fun i => 0 <= i < Z.of_nat m) x_sparse ->
  predict w w_sparse x x_sparse h = Ok 0.5%float.
Proof.
  intros Hrow Hrows Hx Hfin Hxs. unfold predict.
  rewrite (wTx_sum w w_sparse x x_sparse h).
  - rewrite Hrow, Hrows. cbn [lit_0 b64 mbind res_bind].
    rewrite (dense_dot_zero_weights x n Hfin), (sparse_dot_zero_weights x_sparse m Hxs).
    vm_compute. reflexivity.
  - rewrite Hrow, length_replicate. exact Hx.
  - rewrite Hrows, length_replicate. exact Hxs.
Qed.



(** ** binary64: clipping to [-100, 100] *)



(** The clipped value is never above the threshold of [math.exp] once negated. *)
Lemma b64_clip_no_overflow (d : float) :
  PrimFloat.ltb B64.exp_overflow_threshold (- clip d) = false.
Proof.
  unfold clip, py_min, py_max. cbn [flt fneg lit_100 b64].
  destruct (PrimFloat.ltb d (PrimFloat.opp 100)) eqn:Hlo; [reflexivity|].
  destruct (PrimFloat.ltb 100 d) eqn:Hhi; [reflexivity|].
  rewrite ltb_spec in Hlo. rewrite ltb_spec, opp_spec.
  change (Prim2SF (- (100))%float) with (S754_finite true 7036874417766400 (-46)) in Hlo.
  change (Prim2SF B64.exp_overflow_threshold)
    with (S754_finite false 6243314768165359 (-43)).
  unfold SFltb, SFcompare, SFopp in *.
  destruct (Prim2SF d) as [[|]|[|]| |[|] m e]; cbn [negb];
    try reflexivity; try discriminate.
  destruct (Z.compare_spec e (-46)) as [He|Hc|Hc]; try discriminate.
  - subst e. reflexivity.
  - destruct (Z.compare_spec (-43) e) as [He|He|He]; try reflexivity; lia.
Qed.


(** ** [predict]: which exceptions, which values *)

Lemma for_each_raises {A S : Type} (P : exn -> Prop) (body : S -> A -> res S)
    (l : list A) (s : S) (e : exn) :
  (forall s a e, body s a = Raise e -> P e) ->
  for_each body l s = Raise e -> P e.
Proof.
  intros Hbody. revert s. induction l as [|a l IH]; intros s; cbn [for_each]; [discriminate|].
  destruct (body s a) as [s'|e'] eqn:E; cbn [mbind res_bind].
  - apply IH.
  - intros [= <-]. exact (Hbody _ _ _ E).
Qed.

Lemma getitem_raises {A : Type} (l : list A) (i : Z) (e : exn) :
  getitem l i = Raise e -> e = IndexError.
Proof.
  unfold getitem, py_index. repeat case_bool_decide; cbn [mbind res_bind];
    try (destruct (l !! _)); congruence.
Qed.

Lemma wTx_raises {F : Type} `{PyFloat F} (w w_sparse : loc) (x : list F)
    (x_sparse : list Z) (h : heap F) (e : exn) :
  wTx w w_sparse x x_sparse h = Raise e -> e = IndexError.
Proof.
  unfold wTx. intros Hrun.
  destruct (for_each _ (enumerate x) lit_0) as [d|e'] eqn:E; cbn [mbind res_bind] in Hrun.
  - revert Hrun. apply (for_each_raises (fun e => e = IndexError)). intros s i e0.
    destruct (getitem (h !!! w_sparse) i) eqn:G; cbn [mbind res_bind]; [discriminate|].
    intros [= <-]. exact (getitem_raises _ _ _ G).
  - injection Hrun as ->. revert E. apply (for_each_raises (fun e => e = IndexError)).
    intros s [i val] e0.
    destruct (getitem (h !!! w) i) eqn:G; cbn [mbind res_bind]; [discriminate|].
    intros [= <-]. exact (getitem_raises _ _ _ G).
Qed.

Lemma predict_b64 (w w_sparse : loc) (x : list float) (x_sparse : list Z) (h : heap float) :
  predict w w_sparse x x_sparse h
  = d ← wTx w w_sparse x x_sparse h;
    fdiv 1%float (1 + B64.exp64 (- clip d))%float.
Proof.
  unfold predict. destruct (wTx w w_sparse x x_sparse h) as [d|e]; [|reflexivity].
  cbn [mbind res_bind]. fold (clip d). cbn [math_exp fneg b64]. unfold B64.exp.
  rewrite b64_clip_no_overflow. reflexivity.
Qed.



Lemma predict_exact (w w_sparse : loc) (x : list R) (x_sparse : list Z) (h : heap R) :
  predict w w_sparse x x_sparse h
  = d ← wTx w w_sparse x x_sparse h;
    Ok (1 / (1 + Rtrigo_def.exp (- clip d)))%R.
Proof.
  unfold predict. destruct (wTx w w_sparse x x_sparse h) as [d|e]; [|reflexivity].
  cbn [mbind res_bind]. fold (clip d). cbn [math_exp fneg fdiv fadd lit_1 exact].
  cbn [mbind res_bind]. unfold Exact.div. pose proof (exp_pos (- clip d)) as Hpos.
  destruct (Req_dec_T (1 + Rtrigo_def.exp (- clip d)) 0) as [Hz|_]; [lra|reflexivity].
Qed.




(** ** Evaluation *)

Lemma classes_range (c : list Z) (c_i : Z) : classes !! c = Some c_i -> 0 <= c_i < 8.
Proof.
  revert c c_i. change (map_Forall (fun _ c_i => 0 <= c_i < 8) classes).
  apply (bool_decide_unpack _). vm_compute. exact I.
Qed.




Section Evaluation.

Context {F : Type} `{PyFloat F}.

Lemma eval_label_inv (t : @trainer F) (o : @gen_state F) (e e' : evaluator) (k : Z) :
  eval_label t o e k = Ok e' ->
  exists wk wsk p bits,
    getitem (w t) k = Ok wk
    /\ getitem (w_sparse t) k = Ok wsk
    /\ predict wk wsk (X o) (X_sparse o) (store t) = Ok p
    /\ setitem (predicted e) k (if flt lit_half p then 1 else 0) = Ok bits
    /\ e' = {| cm_store := cm_store e; confusion_matrix := confusion_matrix e;
               predicted := bits; test_ctr := test_ctr e |}.
Proof.
  unfold eval_label. intros Hrun.
  inv_bind Hrun. inv_bind Hrun. inv_bind Hrun. inv_bind Hrun. injection Hrun as <-.
  repeat eexists; eassumption.
Qed.

Lemma eval_labels_frame (t : @trainer F) (o : @gen_state F) (ks : list Z)
    (e e' : evaluator) :
  for_each (eval_label t o) ks e = Ok e' ->
  cm_store e' = cm_store e /\ confusion_matrix e' = confusion_matrix e
  /\ test_ctr e' = test_ctr e.
Proof.
  revert e. induction ks as [|k ks IH]; intros e Hrun; cbn [for_each] in Hrun.
  - injection Hrun as <-. auto.
  - inv_bind Hrun. destruct (IH _ Hrun) as (-> & -> & ->).
    destruct (eval_label_inv _ _ _ _ _ E) as (? & ? & ? & ? & _ & _ & _ & _ & ->). auto.
Qed.


End Evaluation.





(** C10.  The predicted bit of a label is 1 exactly when the probability
    [predict] returns for it is strictly greater than [0.5]; a probability of
    exactly [0.5], which is what all-zero weights give, yields the bit 0. *)
Theorem threshold_is_strict
    (t : @trainer float) (o : @gen_state float) (e e' : evaluator) (k : nat) :
  eval_label t o e (Z.of_nat k) = Ok e' ->
  exists wk wsk p,
    w t !! k = Some wk /\ w_sparse t !! k = Some wsk
    /\ predict wk wsk (X o) (X_sparse o) (store t) = Ok p
    /\ predicted e' !! k = Some (if PrimFloat.ltb 0.5 p then 1 else 0)
    /\ (predicted e' !! k = Some 1 <-> PrimFloat.ltb 0.5 p = true)
    /\ (p = 0.5%float -> predicted e' !! k = Some 0)
    /\ (forall n m : nat,
          store t !!! wk = replicate n 0%float ->
          store t !!! wsk = replicate m 0%float ->
          (length (X o) <= n)%nat ->
          Forall (fun v => PrimFloat.is_finite v = true) (X o) ->
          Forall (fun i => 0 <= i < Z.of_nat m) (X_sparse o) ->
          p = 0.5%float /\ predicted e' !! k = Some 0).
Proof.
  intros Hrun.
  destruct (eval_label_inv t o e e' _ Hrun) as (wk & wsk & p & bits & Hwk & Hwsk & Hp & Hb & ->).
  apply getitem_nonneg_inv in Hwk, Hwsk.
  apply (setitem_lookup _ _ (Z.of_nat k)) in Hb; [|lia]. rewrite Nat2Z.id in Hb.
  cbn [flt lit_half b64] in Hb.
  exists wk, wsk, p. cbn [predicted].
  split; [exact Hwk|]. split; [exact Hwsk|]. split; [exact Hp|]. split; [exact Hb|].
  split; [|split].
  - rewrite Hb. destruct (PrimFloat.ltb 0.5 p); split; congruence.
  - intros ->. exact Hb.
  - intros n m Hrow Hrows Hx Hfin Hxs.
    rewrite (predict_zero_weights wk wsk _ _ _ n m Hrow Hrows Hx Hfin Hxs) in Hp.
    injection Hp as <-. split; [reflexivity|exact Hb].
Qed.

Lemma threshold_is_strict_witness :
  exists e',
    eval_label small_trainer small_observation evaluator_init 1 = Ok e'
    /\ exists wk wsk p,
         w small_trainer !! 1%nat = Some wk /\ w_sparse small_trainer !! 1%nat = Some wsk
         /\ predict wk wsk (X small_observation) (X_sparse small_observation)
              (store small_trainer) = Ok p
         /\ predicted e' !! 1%nat = Some (if PrimFloat.ltb 0.5 p then 1 else 0)
         /\ (predicted e' !! 1%nat = Some 1 <-> PrimFloat.ltb 0.5 p = true)
         /\ (p = 0.5%float -> predicted e' !! 1%nat = Some 0)
         /\ (forall n m : nat,
               store small_trainer !!! wk = replicate n 0%float ->
               store small_trainer !!! wsk = replicate m 0%float ->
               (length (X small_observation) <= n)%nat ->
               Forall (fun v => PrimFloat.is_finite v = true) (X small_observation) ->
               Forall (fun i => 0 <= i < Z.of_nat m) (X_sparse small_observation) ->
               p = 0.5%float /\ predicted e' !! 1%nat = Some 0).
Proof.
  eexists. split; [vm_compute; reflexivity|].
  apply (threshold_is_strict small_trainer small_observation evaluator_init _ 1).
  reflexivity.
Defined.

(** The evaluation loop on three changes, stopped after two. *)
Example evaluation_loop_runs :
  (fun e => (cm_total e, test_ctr e, cell e 0 0, cell e 0 1))
    <$> evaluation_loop (fun _ => 1) 2 small_trainer
          [change_of_delta 10; change_of_delta (-10); change_of_delta 0]
          get_data_init evaluator_init
  = Ok (2, 2, 2, 0).
Proof. vm_compute. reflexivity. Qed.

(** * Further properties *)

(** ** The length statistics in exact arithmetic *)

Section ExactStatistics.

Local Open Scope R_scope.

Lemma sum_Z_app (l1 l2 : list Z) : sum_Z (l1 ++ l2) = (sum_Z l1 + sum_Z l2)%Z.
Proof. unfold sum_Z. induction l1 as [|a l1 IH]; cbn; [reflexivity|]. rewrite IH. lia. Qed.

Lemma squared_deviations_app (m : R) (l1 l2 : list Z) :
  squared_deviations m (l1 ++ l2) = squared_deviations m l1 + squared_deviations m l2.
Proof.
  unfold squared_deviations, sum_R.
  induction l1 as [|a l1 IH]; cbn [app map foldr]; [lra|]. rewrite IH. lra.
Qed.

Lemma squared_deviations_nonneg (m : R) (vs : list Z) : 0 <= squared_deviations m vs.
Proof.
  unfold squared_deviations, sum_R.
  induction vs as [|a vs IH]; cbn [map foldr]; [lra|].
  pose proof (Rle_0_sqr (IZR a - m)) as Hsq. unfold Rsqr in Hsq. lra.
Qed.

Lemma squared_deviations_zero (m : R) (vs : list Z) :
  squared_deviations m vs = 0 -> Forall (fun v => IZR v = m) vs.
Proof.
  induction vs as [|a vs IH]; intros Hz; [constructor|].
  change (squared_deviations m (a :: vs))
    with ((IZR a - m) * (IZR a - m) + squared_deviations m vs) in Hz.
  pose proof (squared_deviations_nonneg m vs) as Hnn.
  pose proof (Rle_0_sqr (IZR a - m)) as Hsq. unfold Rsqr in Hsq.
  assert (Ha : (IZR a - m) * (IZR a - m) = 0) by lra.
  constructor; [|apply IH; lra].
  apply Rmult_integral in Ha. lra.
Qed.

(** The sum of the squared deviations from [m], expanded. *)
Lemma squared_deviations_expand (m : R) (vs : list Z) :
  squared_deviations m vs
  = squared_deviations 0 vs - 2 * m * IZR (sum_Z vs)
    + IZR (Z.of_nat (length vs)) * m * m.
Proof.
  induction vs as [|a vs IH].
  - unfold squared_deviations, sum_R, sum_Z. cbn [map foldr length].
    change (Z.of_nat 0) with 0%Z. lra.
  - change (squared_deviations m (a :: vs))
      with ((IZR a - m) * (IZR a - m) + squared_deviations m vs).
    change (squared_deviations 0 (a :: vs))
      with ((IZR a - 0) * (IZR a - 0) + squared_deviations 0 vs).
    change (sum_Z (a :: vs)) with (a + sum_Z vs)%Z.
    rewrite IH, plus_IZR. cbn [length]. rewrite Nat2Z.inj_succ, succ_IZR. lra.
Qed.

(** What [get_length_statistics] computes. *)
Lemma get_length_statistics_exact (x n : Z) (mean M2 : R) :
  (0 <= n)%Z -> 0 <= M2 ->
  let mean' := mean + (IZR x - mean) / IZR (n + 1) in
  let M2' := M2 + (IZR x - mean) * (IZR x - mean') in
  M2 <= M2'
  /\ get_length_statistics x n mean M2
     = Ok (mean', (if bool_decide (n + 1 < 2)%Z then 0 else sqrt (M2' / IZR n)), M2').
Proof.
  intros Hn HM2 mean' M2'.
  assert (Hn1 : 0 < IZR (n + 1)) by (apply IZR_lt; lia).
  assert (Hstep : (IZR x - mean) * (IZR x - mean')
                  = (IZR x - mean) * (IZR x - mean) * (IZR n / IZR (n + 1))).
  { unfold mean'. rewrite plus_IZR. rewrite plus_IZR in Hn1. field. lra. }
  assert (Hnn : 0 <= IZR n / IZR (n + 1)).
  { apply Rmult_le_pos; [apply IZR_le; lia|].
    left. apply Rinv_0_lt_compat. exact Hn1. }
  assert (Hle : M2 <= M2').
  { unfold M2'. rewrite Hstep.
    pose proof (Rle_0_sqr (IZR x - mean)) as Hsq. unfold Rsqr in Hsq.
    pose proof (Rmult_le_pos _ _ Hsq Hnn). lra. }
  split; [exact Hle|].
  unfold get_length_statistics. cbn [float_of_int exact mbind res_bind fsub fadd fmul fdiv lit_0].
  unfold Exact.div.
  destruct (Req_dec_T (IZR (n + 1)) 0) as [Hz|_]; [lra|].
  cbn [mbind res_bind]. fold mean'. fold M2'.
  destruct (bool_decide (n + 1 < 2)%Z) eqn:Hb; [reflexivity|].
  apply bool_decide_eq_false in Hb.
  replace (n + 1 - 1)%Z with n by lia.
  assert (Hpos : 0 < IZR n) by (apply IZR_lt; lia).
  destruct (Req_dec_T (IZR n) 0) as [Hz|_]; [lra|].
  cbn [mbind res_bind math_sqrt exact]. unfold Exact.sqrt.
  destruct (Rlt_dec (M2' / IZR n) 0) as [Hneg|_]; [|reflexivity].
  exfalso. assert (0 <= M2' / IZR n); [|lra].
  apply Rmult_le_pos; [lra|]. left. apply Rinv_0_lt_compat. exact Hpos.
Qed.

(** One step from [n] values with their mean and squared deviations. *)
Lemma welford_step (vs : list Z) (x : Z) (mean M2 : R) :
  IZR (Z.of_nat (length vs)) * mean = IZR (sum_Z vs) ->
  M2 = squared_deviations mean vs ->
  exists mean' std' M2',
    get_length_statistics x (Z.of_nat (length vs)) mean M2 = Ok (mean', std', M2')
    /\ mean' = IZR (sum_Z (vs ++ [x])) / IZR (Z.of_nat (length (vs ++ [x])))
    /\ M2' = squared_deviations mean' (vs ++ [x])
    /\ std' = match vs with
              | [] => 0
              | _ => sqrt (M2' / IZR (Z.of_nat (length vs)))
              end.
Proof.
  intros Hs HM.
  destruct (get_length_statistics_exact x (Z.of_nat (length vs)) mean M2) as [_ Heq];
    [lia | rewrite HM; apply squared_deviations_nonneg |].
  assert (Hn : 0 <= IZR (Z.of_nat (length vs))) by (apply IZR_le; lia).
  assert (Hmean : mean + (IZR x - mean) / IZR (Z.of_nat (length vs) + 1)
                  = IZR (sum_Z (vs ++ [x])) / IZR (Z.of_nat (length (vs ++ [x])))).
  { rewrite sum_Z_app, length_app, Nat2Z.inj_add, !plus_IZR, <- Hs.
    change (sum_Z [x]) with (x + 0)%Z. rewrite Z.add_0_r.
    change (Z.of_nat (length [x])) with 1%Z. field. lra. }
  eexists _, _, _. split; [exact Heq|]. split; [exact Hmean|]. split.
  - rewrite Hmean.
    set (mean' := IZR (sum_Z (vs ++ [x])) / IZR (Z.of_nat (length (vs ++ [x])))) in *.
    rewrite (squared_deviations_expand mean'), squared_deviations_app.
    rewrite HM, (squared_deviations_expand mean).
    rewrite sum_Z_app, length_app, Nat2Z.inj_add, !plus_IZR, <- Hs.
    change (sum_Z [x]) with (x + 0)%Z. rewrite Z.add_0_r.
    change (Z.of_nat (length [x])) with 1%Z.
    change (squared_deviations 0 [x]) with ((IZR x - 0) * (IZR x - 0) + 0).
    rewrite <- Hmean, plus_IZR. field. lra.
  - destruct vs as [|v vs]; [reflexivity|].
    rewrite bool_decide_eq_false_2; [reflexivity|]. cbn [length]. lia.
Qed.

End ExactStatistics.

(** X1.  [get_length_statistics] is a step of Welford's algorithm in exact
    arithmetic: entered with the number of earlier values, their mean and
    the sum of their squared deviations from it, it returns the mean of the
    earlier values and the new one, the sum of the squared deviations from
    the new mean, which has not decreased, and the sample standard deviation
    sqrt(M2 / n), which is 0 for the first value. *)
Theorem get_length_statistics_welford (vs : list Z) (x : Z) (mean M2 : R) :
  (IZR (Z.of_nat (length vs)) * mean = IZR (sum_Z vs))%R ->
  M2 = squared_deviations mean vs ->
  exists mean' std' M2',
    get_length_statistics x (Z.of_nat (length vs)) mean M2 = Ok (mean', std', M2')
    /\ mean' = (IZR (sum_Z (vs ++ [x])) / IZR (Z.of_nat (length (vs ++ [x]))))%R
    /\ M2' = squared_deviations mean' (vs ++ [x])
    /\ std' = match vs with
              | [] => 0%R
              | _ => sqrt (M2' / IZR (Z.of_nat (length vs)))
              end
    /\ (M2 <= M2')%R
    /\ (0 <= std')%R.
Proof.
  intros Hs HM.
  destruct (welford_step vs x mean M2 Hs HM)
    as (mean' & std' & M2' & Hrun & Hmean & HM2 & Hstd).
  destruct (get_length_statistics_exact x (Z.of_nat (length vs)) mean M2) as [Hle Heq];
    [lia | rewrite HM; apply squared_deviations_nonneg |].
  cbv zeta in Hle, Heq. rewrite Hrun in Heq. injection Heq as Hm Hsd HM'.
  exists mean', std', M2'. split; [exact Hrun|]. split; [exact Hmean|].
  split; [exact HM2|]. split; [exact Hstd|]. split.
  - rewrite HM'. exact Hle.
  - rewrite Hstd. destruct vs; [apply Rle_refl|apply sqrt_pos].
Qed.

Lemma get_length_statistics_welford_witness :
  exists mean' std' M2',
    get_length_statistics 20 (Z.of_nat (length [10; 10])) 10%R 0%R = Ok (mean', std', M2')
    /\ mean' = (IZR (sum_Z ([10; 10] ++ [20])%Z)
                / IZR (Z.of_nat (length ([10; 10] ++ [20])%Z)))%R
    /\ M2' = squared_deviations mean' ([10; 10] ++ [20])
    /\ std' = sqrt (M2' / IZR (Z.of_nat (length [10; 10])))
    /\ (0 <= M2')%R
    /\ (0 <= std')%R.
Proof.
  apply (get_length_statistics_welford [10; 10] 20 10%R 0%R).
  - unfold sum_Z. cbn [length foldr]. change (Z.of_nat 2) with 2%Z.
    change (10 + (10 + 0)) with 20. lra.
  - unfold squared_deviations, sum_R. cbn [map foldr]. lra.
Defined.

(** ** The generator step on its three lists *)

Section GeneratorStep.

Context {F : Type} `{PyFloat F}.
Variable hash : string -> Z.

Lemma get_data_step_shaped (g : gen_state) (el : change) (a b : F) :
  X g = [a; b] -> length (X_sparse g) = 3%nat -> length (Y g) = 3%nat ->
  get_data_step hash g el
  = '(mean, std, M2) ←
      get_length_statistics (Z.abs (newlen el - oldlen el)) (length_n g + 1)
        (length_mean g) (length_M2 g);
    x1 ← (if flt lit_0 std
          then flength ← float_of_int (Z.abs (newlen el - oldlen el));
               fdiv (fsub flength mean) std
          else float_of_int (Z.abs (newlen el - oldlen el)));
    Ok {| length_n := length_n g + 1; length_mean := mean; length_M2 := M2;
          X := [a; x1];
          X_sparse :=
            [Z.abs (hash (String.append "comment_" (parsedcomment el))) `mod` D_sparse;
             Z.abs (hash (String.append "username_" (user el))) `mod` D_sparse;
             Z.abs (hash (String.append "title_" (title el))) `mod` D_sparse];
          Y := [flag (bot el); flag (minor el); flag (new el)] |}.
Proof.
  intros HX HXs HY. unfold get_data_step. rewrite HX.
  destruct (X_sparse g) as [|s0 [|s1 [|s2 [|]]]]; try discriminate.
  destruct (Y g) as [|y0 [|y1 [|y2 [|]]]]; try discriminate.
  destruct (get_length_statistics _ _ _ _) as [[[mean std] M2]|e]; [|reflexivity].
  cbn [mbind res_bind].
  destruct (if flt lit_0 std then _ else _) as [x1|e]; reflexivity.
Qed.

End GeneratorStep.

(** ** The generator in exact arithmetic *)

Section ExactGenerator.

Variable hash : string -> Z.

Local Open Scope R_scope.

Lemma sum_Z_zeros (ys : list Z) : Forall (eq 0%Z) ys -> sum_Z ys = 0%Z.
Proof.
  unfold sum_Z. induction 1 as [|y ys Hy _ IH]; cbn [foldr]; [reflexivity|]. lia.
Qed.

Lemma squared_deviations_zeros (ys : list Z) :
  Forall (eq 0%Z) ys -> squared_deviations 0 ys = 0.
Proof.
  unfold squared_deviations, sum_R.
  induction 1 as [|y ys Hy _ IH]; cbn [map foldr]; [reflexivity|].
  rewrite IH, <- Hy. lra.
Qed.

Lemma get_data_step_exact (g : @gen_state R) (el : change) (xs : list Z) (b : R) :
  let x := Z.abs (newlen el - oldlen el) in
  length_n g = Z.of_nat (length xs) ->
  IZR (Z.of_nat (length (0%Z :: xs))) * length_mean g = IZR (sum_Z (0%Z :: xs)) ->
  length_M2 g = squared_deviations (length_mean g) (0%Z :: xs) ->
  X g = [1; b] -> length (X_sparse g) = 3%nat -> length (Y g) = 3%nat ->
  exists g',
    get_data_step hash g el = Ok g'
    /\ exact_statistics (xs ++ [x]) g'
    /\ exact_normalized (xs ++ [x]) x g'
    /\ IZR (Z.of_nat (length (0%Z :: xs ++ [x]))) * length_mean g'
       = IZR (sum_Z (0%Z :: xs ++ [x]))
    /\ length (X_sparse g') = 3%nat /\ length (Y g') = 3%nat.
Proof.
  intros x Hn Hmean HM2 HX HXs HY.
  destruct (welford_step (0%Z :: xs) x (length_mean g) (length_M2 g) Hmean HM2)
    as (mean' & std' & M2' & Hstat & Hmean' & HM2' & Hstd').
  assert (Hcount : (length_n g + 1)%Z = Z.of_nat (length (0%Z :: xs))).
  { rewrite Hn. cbn [length]. lia. }
  assert (Hlen : Z.of_nat (length ((0%Z :: xs) ++ [x]))
                 = (Z.of_nat (length (xs ++ [x])) + 1)%Z).
  { cbn [app length]. lia. }
  assert (Hpos : 0 < IZR (Z.of_nat (length (0%Z :: xs)))).
  { apply IZR_lt. cbn [length]. lia. }
  assert (Hstd0 : 0 <= std').
  { rewrite Hstd'. apply sqrt_pos. }
  assert (HM2nn : 0 <= M2').
  { rewrite HM2'. apply squared_deviations_nonneg. }
  assert (Hz : Forall (eq 0%Z) (xs ++ [x]) -> std' = 0).
  { intros Hall. rewrite Hstd', HM2', Hmean'.
    change (sum_Z ((0%Z :: xs) ++ [x])) with (0 + sum_Z (xs ++ [x]))%Z.
    rewrite (sum_Z_zeros _ Hall). change (0 + 0)%Z with 0%Z.
    unfold Rdiv at 2. rewrite Rmult_0_l.
    rewrite squared_deviations_zeros by (constructor; [reflexivity|exact Hall]).
    unfold Rdiv. rewrite Rmult_0_l. apply sqrt_0. }
  assert (Hnz : std' = 0 -> Forall (eq 0%Z) (xs ++ [x])).
  { intros Hs0. rewrite Hstd' in Hs0. apply sqrt_eq_0 in Hs0.
    - assert (HM0 : M2' = 0).
      { unfold Rdiv in Hs0. apply Rmult_integral in Hs0. destruct Hs0 as [Hs0|Hs0]; [exact Hs0|].
        exfalso. apply (Rinv_neq_0_compat (IZR (Z.of_nat (length (0%Z :: xs))))); [lra|exact Hs0]. }
      rewrite HM2' in HM0. apply squared_deviations_zero in HM0.
      change ((0%Z :: xs) ++ [x]) with (0%Z :: (xs ++ [x])) in HM0.
      inversion HM0 as [|v vs Hhead Htail]; subst.
      eapply Forall_impl; [exact Htail|]. intros v Hv. cbn beta in Hv.
      rewrite <- Hhead in Hv. apply eq_IZR in Hv. congruence.
    - unfold Rdiv. apply Rmult_le_pos; [exact HM2nn|].
      left. apply Rinv_0_lt_compat. exact Hpos. }
  rewrite (get_data_step_shaped hash g el 1 b HX HXs HY).
  fold x. rewrite Hcount, Hstat. cbn [mbind res_bind].
  cbn [flt exact lit_0]. unfold Exact.ltb.
  assert (Hstats : forall x1,
    exact_statistics (xs ++ [x])
      {| length_n := Z.of_nat (length (0%Z :: xs)); length_mean := mean'; length_M2 := M2';
         X := [1; x1];
         X_sparse :=
           [Z.abs (hash (String.append "comment_" (parsedcomment el))) `mod` D_sparse;
            Z.abs (hash (String.append "username_" (user el))) `mod` D_sparse;
            Z.abs (hash (String.append "title_" (title el))) `mod` D_sparse];
         Y := [flag (bot el); flag (minor el); flag (new el)] |}).
  { intros x1. unfold exact_statistics. cbn [length_n length_mean length_M2].
    split; [|split].
    - rewrite length_app. cbn [length]. lia.
    - rewrite Hmean', Hlen. reflexivity.
    - exact HM2'. }
  assert (Hsum : IZR (Z.of_nat (length (0%Z :: xs ++ [x]))) * mean'
                 = IZR (sum_Z (0%Z :: xs ++ [x]))).
  { rewrite Hmean'. change ((0%Z :: xs) ++ [x]) with (0%Z :: xs ++ [x]).
    field. apply not_0_IZR. cbn [length]. lia. }
  destruct (Rlt_dec 0 std') as [Hlt|Hnlt].
  - cbn [float_of_int exact mbind res_bind fdiv fsub]. unfold Exact.div.
    destruct (Req_dec_T std' 0) as [Heq|_]; [lra|].
    eexists. split; [reflexivity|]. split; [apply Hstats|].
    split; [|split; [exact Hsum|split; reflexivity]].
    eexists. split; [reflexivity|]. cbn zeta. cbn [length_n length_mean length_M2].
    right. rewrite <- Hstd'. split; [|split; [exact Hlt|reflexivity]].
    intros Hall. apply Hz in Hall. lra.
  - cbn [float_of_int exact mbind res_bind].
    assert (Hs0 : std' = 0) by lra. pose proof (Hnz Hs0) as Hall.
    assert (Hx : x = 0%Z).
    { apply Forall_app in Hall. destruct Hall as [_ Hx]. inversion Hx; subst. congruence. }
    eexists. split; [reflexivity|]. split; [apply Hstats|].
    split; [|split; [exact Hsum|split; reflexivity]].
    eexists. split; [reflexivity|]. cbn zeta. cbn [length_n length_mean length_M2].
    left. rewrite <- Hstd'. split; [exact Hall|]. split; [exact Hs0|].
    split; [exact Hx|]. rewrite Hx. reflexivity.
Qed.

Lemma get_data_from_exact (feed : list change) :
  forall (g : @gen_state R) (xs : list Z) (b : R),
    length_n g = Z.of_nat (length xs) ->
    IZR (Z.of_nat (length (0%Z :: xs))) * length_mean g = IZR (sum_Z (0%Z :: xs)) ->
    length_M2 g = squared_deviations (length_mean g) (0%Z :: xs) ->
    X g = [1; b] -> length (X_sparse g) = 3%nat -> length (Y g) = 3%nat ->
    exists obs,
      get_data_from hash g feed = Ok obs
      /\ length obs = length feed
      /\ forall (i : nat) (o : gen_state),
           obs !! i = Some o ->
           exists x,
             raw_lengths feed !! i = Some x
             /\ exact_statistics (xs ++ take (S i) (raw_lengths feed)) o
             /\ exact_normalized (xs ++ take (S i) (raw_lengths feed)) x o.
Proof.
  induction feed as [|el feed IH]; intros g xs b Hn Hmean HM2 HX HXs HY.
  - exists []. split; [reflexivity|]. split; [reflexivity|]. intros i o Hi. discriminate.
  - destruct (get_data_step_exact g el xs b Hn Hmean HM2 HX HXs HY)
      as (g' & Hstep & Hstats & Hnorm & Hsum & HXs' & HY').
    destruct Hnorm as (v & HX' & Hv).
    destruct Hstats as (Hn' & Hmean' & HM2').
    destruct (IH g' (xs ++ [Z.abs (newlen el - oldlen el)]) v Hn' Hsum HM2' HX' HXs' HY')
      as (rest & Hrest & Hlen & Hobs).
    exists (g' :: rest). split; [|split].
    + cbn [get_data_from]. rewrite Hstep. cbn [mbind res_bind]. rewrite Hrest. reflexivity.
    + cbn [length]. rewrite Hlen. reflexivity.
    + intros [|i] o Hi.
      * injection Hi as <-. exists (Z.abs (newlen el - oldlen el)).
        cbn [raw_lengths map take]. split; [reflexivity|].
        split; [repeat split; assumption|]. exists v. split; assumption.
      * destruct (Hobs i o Hi) as (x & Hx & Hs & Hnm). exists x.
        change (raw_lengths (el :: feed))
          with (Z.abs (newlen el - oldlen el) :: raw_lengths feed).
        cbn [take]. split; [exact Hx|].
        rewrite <- app_assoc in Hs, Hnm. split; assumption.
Qed.

Lemma get_data_exact (feed : list change) :
  exists obs : list (@gen_state R),
    get_data hash feed = Ok obs
    /\ length obs = length feed
    /\ forall (i : nat) (o : gen_state),
         obs !! i = Some o ->
         exists x,
           raw_lengths feed !! i = Some x
           /\ exact_statistics (take (S i) (raw_lengths feed)) o
           /\ exact_normalized (take (S i) (raw_lengths feed)) x o.
Proof.
  apply (get_data_from_exact feed get_data_init [] 0); try reflexivity.
  - cbn [get_data_init length_mean lit_0 exact length]. unfold sum_Z. cbn [foldr].
    change (0 + 0)%Z with 0%Z. lra.
  - cbn [get_data_init length_mean length_M2 lit_0 exact].
    unfold squared_deviations, sum_R. cbn [map foldr]. lra.
Qed.

End ExactGenerator.


(** X3.  In exact arithmetic the normalized length [X[1]] of the k-th
    observation is (xk - mean) / std with std = sqrt(M2 / k) > 0 unless all
    raw lengths seen so far are 0; the fallback to the raw length is taken
    only in that case, where the raw length and [X[1]] are 0. *)
Theorem get_data_exact_normalized (hash : string -> Z) (feed : list change) :
  exists obs : list (@gen_state R),
    get_data hash feed = Ok obs
    /\ forall (i : nat) (o : gen_state),
         obs !! i = Some o ->
         exists (x : Z) (v : R),
           raw_lengths feed !! i = Some x
           /\ X o = [1%R; v]
           /\ let xs := take (S i) (raw_lengths feed) in
              let std := sqrt (length_M2 o / IZR (length_n o)) in
              (Forall (eq 0) xs /\ std = 0%R /\ x = 0 /\ v = 0%R)
              \/ (~ Forall (eq 0) xs /\ (0 < std)%R
                  /\ v = ((IZR x - length_mean o) / std)%R).
Proof.
  destruct (get_data_exact hash feed) as (obs & Hrun & Hlen & Hobs).
  exists obs. split; [exact Hrun|].
  intros i o Hi. destruct (Hobs i o Hi) as (x & Hx & _ & v & HX & Hv).
  exists x, v. split; [exact Hx|]. split; [exact HX|]. exact Hv.
Qed.

(** ** What the two loops can raise

    The loops are followed on states of the right shape.  [P] holds of the
    exceptions that the float arithmetic of [predict] and of the generator
    raises, [I] is an invariant of the generator. *)

Section Outcomes.

Context {F : Type} `{PyFloat F}.
Variable hash : string -> Z.

Lemma get_data_init_shape : observation_shape (@get_data_init F _).
Proof.
  unfold observation_shape, get_data_init. cbn [X X_sparse Y length].
  split; [eexists; reflexivity|]. split; [reflexivity|].
  split; [|split; [reflexivity|]].
  - repeat (apply Forall_cons; split; [split; [lia|reflexivity]|]). apply Forall_nil_2.
  - repeat (apply Forall_cons; split; [lia|]). apply Forall_nil_2.
Qed.

Lemma get_data_step_shape (g g' : gen_state) (el : change) :
  observation_shape g -> get_data_step hash g el = Ok g' ->
  observation_shape g' /\ length_n g' = length_n g + 1
  /\ Y g' = [flag (bot el); flag (minor el); flag (new el)].
Proof.
  intros ((b & HX) & HXs & _ & HY & _) Hstep.
  rewrite (get_data_step_shaped hash g el lit_1 b HX HXs HY) in Hstep.
  inv_bind Hstep. destruct a as [[mean std] M2]. inv_bind Hstep. injection Hstep as <-.
  unfold observation_shape. cbn [length_n X X_sparse Y length].
  split; [|split; reflexivity].
  split; [eexists; reflexivity|]. split; [reflexivity|]. split; [|split; [reflexivity|]].
  - repeat (apply Forall_cons; split; [apply Z.mod_pos_bound; reflexivity|]).
    apply Forall_nil_2.
  - destruct (bot el), (minor el), (new el); cbn [flag];
      repeat (apply Forall_cons; split; [lia|]); apply Forall_nil_2.
Qed.




Variable P : exn -> Prop.
Variable I : @gen_state F -> Prop.

Hypothesis bit_converts : forall z, 0 <= z <= 1 -> exists f, float_of_int z = Ok f.

Hypothesis predict_raises :
  forall (w w_sparse : loc) (x : list F) (x_sparse : list Z) (h : heap F) (e : exn),
    (length x <= length (h !!! w))%nat ->
    Forall (fun i => 0 <= i < Z.of_nat (length (h !!! w_sparse))) x_sparse ->
    predict w w_sparse x x_sparse h = Raise e -> P e.

Hypothesis get_data_step_raises :
  forall (g : gen_state) (el : change),
    I g ->
    match get_data_step hash g el with
    | Ok g' => I g' /\ observation_shape g'
    | Raise e => P e
    end.









End Outcomes.

(** ** The exceptions of the float operations *)

#[global] Instance b64_laws : PyFloatLaws float.
Proof.
  split.
  - intros z e. cbn [float_of_int b64]. unfold B64.of_int.
    destruct (PrimFloat.is_infinity _); [|discriminate]. intros [= <-]. reflexivity.
  - intros z Hz. assert (Hcases : z = 0 \/ z = 1) by lia.
    destruct Hcases as [-> | ->]; eexists; vm_compute; reflexivity.
  - intros a b e. cbn [fdiv b64]. unfold B64.div.
    destruct (PrimFloat.eqb b 0); [|discriminate]. intros [= <-]. reflexivity.
  - intros a e. cbn [math_sqrt b64]. unfold B64.sqrt.
    destruct (PrimFloat.ltb a 0); [|discriminate]. intros [= <-]. reflexivity.
  - intros a e. cbn [math_exp b64]. unfold B64.exp.
    destruct (_ && _); [|discriminate]. intros [= <-]. reflexivity.
Qed.

#[global] Instance exact_laws : PyFloatLaws R.
Proof.
  split.
  - intros z e. cbn [float_of_int exact]. discriminate.
  - intros z _. eexists. reflexivity.
  - intros a b e. cbn [fdiv exact]. unfold Exact.div.
    destruct (Req_dec_T b 0); [|discriminate]. intros [= <-]. reflexivity.
  - intros a e. cbn [math_sqrt exact]. unfold Exact.sqrt.
    destruct (Rlt_dec a 0); [|discriminate]. intros [= <-]. reflexivity.
  - intros a e. cbn [math_exp exact]. discriminate.
Qed.

Section Arithmetic.

Context {F : Type} `{PyFloat F} `{!PyFloatLaws F}.
Variable hash : string -> Z.







End Arithmetic.

(** ** How many observations the evaluation loop processes *)

Section EvaluationCount.

Context {F : Type} `{PyFloat F}.
Variable hash : string -> Z.

Lemma eval_observation_test_ctr (t : @trainer F) (o : gen_state) (e e' : evaluator) :
  eval_observation t o e = Ok e' -> test_ctr e' = test_ctr e + 1.
Proof.
  unfold eval_observation. intros Hrun. inv_bind Hrun.
  destruct (eval_labels_frame t o _ e a E) as (_ & _ & Hc).
  do 5 (inv_bind Hrun). injection Hrun as <-. cbn [test_ctr]. lia.
Qed.

Lemma evaluation_loop_count (no_test : Z) (t : @trainer F) (feed : list change) :
  forall (g : gen_state) (e e' : evaluator),
    evaluation_loop hash no_test t feed g e = Ok e' ->
    test_ctr e' = test_ctr e + Z.min (Z.of_nat (length feed)) (Z.max 1 (no_test - test_ctr e)).
Proof.
  induction feed as [|el feed IH]; intros g e e' Hrun; cbn [evaluation_loop] in Hrun.
  - injection Hrun as <-. cbn [length]. lia.
  - inv_bind Hrun. inv_bind Hrun.
    pose proof (eval_observation_test_ctr t a e a0 E0) as Hc.
    cbn [length]. case_bool_decide.
    + injection Hrun as <-. lia.
    + rewrite (IH _ _ _ Hrun). lia.
Qed.

End EvaluationCount.

(** X4.  The evaluation loop tests [test_ctr >= no_test] after it has
    processed an observation: when it returns it has processed [no_test]
    more observations, or the whole feed if that is shorter, and one
    observation even when [no_test] is already reached or not positive. *)
Theorem evaluation_loop_processes_no_test {F : Type} `{PyFloat F} (hash : string -> Z)
    (no_test : Z) (t : @trainer F) (feed : list change) (g : @gen_state F)
    (e e' : evaluator) :
  evaluation_loop hash no_test t feed g e = Ok e' ->
  test_ctr e' - test_ctr e
  = Z.min (Z.of_nat (length feed)) (Z.max 1 (no_test - test_ctr e)).
Proof.
  intros Hrun. rewrite (evaluation_loop_count hash no_test t feed g e e' Hrun). lia.
Qed.

Lemma evaluation_loop_processes_no_test_witness :
  exists e',
    evaluation_loop (fun _ => 1) 0 small_trainer
      [change_of_delta 10; change_of_delta (-10); change_of_delta 0]
      get_data_init evaluator_init = Ok e'
    /\ test_ctr e' - test_ctr evaluator_init
       = Z.min (Z.of_nat (length [change_of_delta 10; change_of_delta (-10);
                                  change_of_delta 0]))
               (Z.max 1 (0 - test_ctr evaluator_init)).
Proof.
  eexists. split; [vm_compute; reflexivity|].
  apply (evaluation_loop_processes_no_test (fun _ => 1) 0 small_trainer
           [change_of_delta 10; change_of_delta (-10); change_of_delta 0]
           get_data_init evaluator_init).
  vm_compute. reflexivity.
Defined.

(** ** The loops from the initial state *)






(** ** The two cells in exact arithmetic *)





(** ** The observations of the generator *)

Lemma get_data_from_count {F : Type} `{PyFloat F} (hash : string -> Z) (feed : list change) :
  forall (g : gen_state) (obs : list gen_state),
    observation_shape g ->
    get_data_from hash g feed = Ok obs ->
    length obs = length feed
    /\ forall (i : nat) (o : gen_state),
         obs !! i = Some o -> length_n o = length_n g + Z.of_nat (S i).
Proof.
  induction feed as [|el feed IH]; intros g obs Hg Hrun; cbn [get_data_from] in Hrun.
  - injection Hrun as <-. split; [reflexivity|]. intros i o Hi. discriminate.
  - inv_bind Hrun. inv_bind Hrun. injection Hrun as <-.
    destruct (get_data_step_shape hash g a el Hg E) as (Ha & Hn & _).
    destruct (IH a a0 Ha E0) as [Hlen Hobs]. split; [cbn [length]; lia|].
    intros [|i] o Hi.
    + injection Hi as <-. lia.
    + rewrite (Hobs i o Hi). lia.
Qed.

(** X8.  Every observation the generator yields has the dense vector
    [1., x1] with the bias 1. first, and the labels 1 or 0 for the presence
    or absence of the keys [bot], [minor] and [new] of its own change; there
    is one observation for every change of the feed, and the k-th carries
    the count k. *)
Theorem get_data_observations {F : Type} `{PyFloat F} (hash : string -> Z)
    (feed : list change) (obs : list gen_state) :
  get_data hash feed = Ok obs ->
  length obs = length feed
  /\ Forall2 (fun el o =>
       (exists x1, X o = [lit_1; x1])
       /\ Y o = [flag (bot el); flag (minor el); flag (new el)]
       /\ Forall (fun y => y = 0 \/ y = 1) (Y o)) feed obs
  /\ forall (i : nat) (o : gen_state), obs !! i = Some o -> length_n o = Z.of_nat (S i).
Proof.
  intros Hrun.
  destruct (get_data_from_count hash feed get_data_init obs get_data_init_shape Hrun)
    as [Hlen Hcount].
  split; [exact Hlen|]. split; [|exact Hcount].
  apply (get_data_from_Forall2 hash _ observation_shape)
    with (g := get_data_init) (obs := obs); [|apply get_data_init_shape|exact Hrun].
  intros g el g' Hg Hstep.
  destruct (get_data_step_shape hash g g' el Hg Hstep) as (Hg' & _ & HY).
  split; [exact Hg'|]. destruct Hg' as (HX & _ & _ & _ & Hbits).
  split; [exact HX|]. split; [exact HY|].
  eapply Forall_impl; [exact Hbits|]. intros y Hy. cbn beta in Hy. lia.
Qed.

Lemma get_data_observations_witness :
  exists obs : list (@gen_state float),
    get_data (fun _ => 1)
      [change_of_delta 10;
       {| newlen := 5; oldlen := 25; parsedcomment := "typo"; user := "bot1";
          title := "Rocq"; bot := Some EmptyString; minor := Some EmptyString; new := None |}] = Ok obs
    /\ length obs = length [change_of_delta 10;
         {| newlen := 5; oldlen := 25; parsedcomment := "typo"; user := "bot1";
            title := "Rocq"; bot := Some EmptyString; minor := Some EmptyString; new := None |}]
    /\ Forall2 (fun el o =>
         (exists x1, X o = [lit_1; x1])
         /\ Y o = [flag (bot el); flag (minor el); flag (new el)]
         /\ Forall (fun y => y = 0 \/ y = 1) (Y o))
       [change_of_delta 10;
        {| newlen := 5; oldlen := 25; parsedcomment := "typo"; user := "bot1";
           title := "Rocq"; bot := Some EmptyString; minor := Some EmptyString; new := None |}] obs
    /\ forall (i : nat) (o : gen_state), obs !! i = Some o -> length_n o = Z.of_nat (S i).
Proof.
  eexists. split; [vm_compute; reflexivity|].
  apply (get_data_observations (fun _ => 1)
           [change_of_delta 10;
            {| newlen := 5; oldlen := 25; parsedcomment := "typo"; user := "bot1";
               title := "Rocq"; bot := Some EmptyString; minor := Some EmptyString; new := None |}]).
  reflexivity.
Defined.

(** ** The axis labels *)

Lemma classes_inverse_of_classes (c : list Z) (i : Z) :
  classes !! c = Some i -> classes_inverse !! i = Some c.
Proof.
  revert c i. change (map_Forall (fun c i => classes_inverse !! i = Some c) classes).
  apply (bool_decide_unpack _). vm_compute. exact I.
Qed.

Lemma classes_of_classes_inverse (i : Z) (c : list Z) :
  classes_inverse !! i = Some c -> classes !! c = Some i.
Proof.
  revert i c. change (map_Forall (fun i c => classes !! c = Some i) classes_inverse).
  apply (bool_decide_unpack _). vm_compute. exact I.
Qed.

Lemma labels_eq :
  labels = Ok [[0; 0; 0]; [0; 0; 1]; [0; 1; 0]; [0; 1; 1];
               [1; 0; 0]; [1; 0; 1]; [1; 1; 0]; [1; 1; 1]].
Proof. vm_compute. reflexivity. Qed.

(** X9.  The dictionary that the plotting cell builds from [classes] is
    its inverse, the comprehension [labels] finds every index below
    [len(classes)] in it (no [KeyError]), and [labels[i]] is the label
    tuple that [classes] numbers [i]: the tick labels of the confusion
    matrix name its rows and columns. *)
Theorem labels_invert_classes :
  (forall (i : Z) (c : list Z), classes_inverse !! i = Some c <-> classes !! c = Some i)
  /\ exists ls : list (list Z),
       labels = Ok ls
       /\ length ls = size classes
       /\ ls = product [0; 1] 3
       /\ forall (i : nat) (c : list Z), ls !! i = Some c <-> classes !! c = Some (Z.of_nat i).
Proof.
  split.
  { intros i c. split; [apply classes_of_classes_inverse|apply classes_inverse_of_classes]. }
  eexists. split; [exact labels_eq|]. split; [vm_compute; reflexivity|].
  split; [reflexivity|]. intros i c. split.
  - intros Hi. do 8 (destruct i as [|i]; [injection Hi as <-; vm_compute; reflexivity|]).
    discriminate.
  - intros Hc. pose proof (classes_range c _ Hc) as Hr.
    apply classes_inverse_of_classes in Hc.
    do 8 (destruct i as [|i];
          [vm_compute in Hc; injection Hc as <-; reflexivity|]).
    lia.
Qed.

(** ** The sign of the dot product *)

Section ExactSign.

Local Open Scope R_scope.

Lemma exp_lt_1 (z : R) : Rtrigo_def.exp z < 1 <-> z < 0.
Proof.
  rewrite <- exp_0. split.
  - apply exp_lt_inv.
  - apply exp_increasing.
Qed.

Lemma exact_clip_sign (d : R) :
  (0 < clip d <-> 0 < d) /\ (clip d < 0 <-> d < 0) /\ (clip d = 0 <-> d = 0).
Proof.
  unfold clip, py_min, py_max. cbn [flt fneg lit_100 exact]. unfold Exact.ltb.
  destruct (Rlt_dec d (Ropp 100)) as [Hlo|Hlo].
  - destruct (Rlt_dec 100 (Ropp 100)) as [Hhi|Hhi]; repeat split; intros; lra.
  - destruct (Rlt_dec 100 d) as [Hhi|Hhi]; repeat split; intros; lra.
Qed.

Lemma logistic_half (z : R) :
  (/ 2 < 1 / (1 + Rtrigo_def.exp (- z)) <-> 0 < z)
  /\ (1 / (1 + Rtrigo_def.exp (- z)) < / 2 <-> z < 0).
Proof.
  pose proof (exp_pos (- z)) as Hpos.
  pose proof (exp_lt_1 (- z)) as [Hlt1 Hlt2].
  assert (Hgt : 1 < Rtrigo_def.exp (- z) <-> 0 < - z).
  { rewrite <- exp_0. split; [apply exp_lt_inv|apply exp_increasing]. }
  destruct Hgt as [Hgt1 Hgt2].
  set (e := Rtrigo_def.exp (- z)) in *.
  assert (Hq : (1 + e) * (1 / (1 + e)) = 1) by (field; lra).
  assert (Hq0 : 0 < 1 / (1 + e)) by (apply Rdiv_lt_0_compat; lra).
  set (q := 1 / (1 + e)) in *.
  split; split; intros Hx.
  - assert (e < 1) by nra. apply Hlt1 in H. lra.
  - assert (e < 1) by (apply Hlt2; lra). nra.
  - assert (1 < e) by nra. apply Hgt1 in H. lra.
  - assert (1 < e) by (apply Hgt2; lra). nra.
Qed.

End ExactSign.

(** X10.  In exact arithmetic the prediction is above one half exactly
    when the dot product is positive, below it exactly when the dot product
    is negative, and one half exactly at 0: the bit the evaluation cell
    stores, [p > .5], is the sign of the dot product.  (Not so in binary64,
    see [b64_small_dot_product_gives_half].) *)
Theorem exact_predict_sign (w w_sparse : loc) (x : list R) (x_sparse : list Z)
    (h : heap R) (d : R) :
  wTx w w_sparse x x_sparse h = Ok d ->
  exists p : R,
    predict w w_sparse x x_sparse h = Ok p
    /\ (flt lit_half p = true <-> (0 < d)%R)
    /\ (flt p lit_half = true <-> (d < 0)%R)
    /\ (p = lit_half <-> d = 0%R).
Proof.
  intros Hd. rewrite predict_exact, Hd. cbn [mbind res_bind]. eexists. split; [reflexivity|].
  destruct (exact_clip_sign d) as (Hpos & Hneg & Hzero).
  destruct (logistic_half (clip d)) as [Hgt Hlt].
  cbn [flt lit_half exact]. unfold Exact.ltb.
  split; [|split].
  - destruct (Rlt_dec _ _) as [Hp|Hp]; split; intros Hx; try discriminate; try reflexivity;
      tauto.
  - destruct (Rlt_dec _ _) as [Hp|Hp]; split; intros Hx; try discriminate; try reflexivity;
      tauto.
  - split; intros Hx.
    + destruct (Rtotal_order d 0) as [Hc|[Hc|Hc]]; [|exact Hc|].
      * apply Hneg, Hlt in Hc. lra.
      * apply Hpos, Hgt in Hc. lra.
    + apply Hzero in Hx. rewrite Hx, Ropp_0, exp_0. lra.
Qed.

Lemma exact_predict_sign_witness :
  exists p : R,
    predict 0%nat 1%nat [1; 2]%R [0; 2; 2] [[1; 1]; [0; 0; 1]]%R = Ok p
    /\ (flt lit_half p = true <-> (0 < 1 + 1 * 2 + 0 + 1 + 1)%R)
    /\ (flt p lit_half = true <-> (1 + 1 * 2 + 0 + 1 + 1 < 0)%R)
    /\ (p = lit_half <-> (1 + 1 * 2 + 0 + 1 + 1)%R = 0%R).
Proof.
  apply (exact_predict_sign 0%nat 1%nat [1; 2]%R [0; 2; 2] [[1; 1]; [0; 0; 1]]%R).
  rewrite wTx_sum.
  - cbn. f_equal. change (Z.to_nat 0) with 0%nat. change (Z.to_nat 2) with 2%nat.
    cbn. lra.
  - cbn. lia.
  - repeat (apply Forall_cons; split; [cbn; lia|]). apply Forall_nil_2.
Defined.

(** In binary64 the sign is lost near 0: with the dot product 2^-60 > 0
    the exponential rounds to 1 and [predict] returns exactly one half. *)
Example b64_small_dot_product_gives_half :
  wTx 0%nat 1%nat [1; 0]%float [0; 1; 2] [[0x1p-60; 0]; [0; 0; 0]]%float = Ok 0x1p-60%float
  /\ PrimFloat.ltb 0 0x1p-60 = true
  /\ predict 0%nat 1%nat [1; 0]%float [0; 1; 2] [[0x1p-60; 0]; [0; 0; 0]]%float
     = Ok 0.5%float.
Proof. vm_compute. repeat split. Qed.

(** ** An update moves the dot product *)

Section ExactUpdate.

Local Open Scope R_scope.

Lemma foldl_dense_sum (l : list (R * R)) (a : R) :
  foldl (fun acc '(wi, xi) => fadd acc (fmul wi xi)) a l
  = a + sum_R (map (fun '(wi, xi) => wi * xi) l).
Proof.
  unfold sum_R. revert a. induction l as [|[wi xi] l IH]; intros a; cbn [foldl map foldr].
  - lra.
  - rewrite IH. cbn [fadd fmul exact]. lra.
Qed.

Lemma foldl_sparse_sum (row : list R) (l : list Z) (a : R) :
  foldl (fun acc i => fadd acc (row !!! Z.to_nat i)) a l
  = a + sum_R (map (fun i => row !!! Z.to_nat i) l).
Proof.
  unfold sum_R. revert a. induction l as [|i l IH]; intros a; cbn [foldl map foldr].
  - lra.
  - rewrite IH. cbn [fadd exact]. lra.
Qed.

Lemma dense_sum_after (c : R) (x : list R) :
  forall row row' : list R,
    (length x <= length row)%nat -> length row' = length row ->
    (forall i wi, row !! i = Some wi ->
       row' !! i = Some (match x !! i with
                         | Some xi => wi + c * xi
                         | None => wi
                         end)) ->
    sum_R (map (fun '(wi, xi) => wi * xi) (zip row' x))
    = sum_R (map (fun '(wi, xi) => wi * xi) (zip row x))
      + c * sum_R (map (fun v => v * v) x).
Proof.
  unfold sum_R. induction x as [|x0 x IH]; intros row row' Hlen Hlen' Hrows.
  - destruct row, row'; cbn [zip_with map foldr]; lra.
  - destruct row as [|a row]; [cbn [length] in Hlen; lia|].
    destruct row' as [|a' row']; [discriminate|].
    pose proof (Hrows 0%nat a eq_refl) as H0. cbn in H0. injection H0 as ->.
    cbn [zip_with map foldr].
    rewrite (IH row row').
    + lra.
    + cbn [length] in Hlen. lia.
    + cbn [length] in Hlen'. lia.
    + intros i wi Hi. exact (Hrows (S i) wi Hi).
Qed.

Lemma iter_add (n : nat) (c v : R) : Nat.iter n (fun v => v + c) v = v + INR n * c.
Proof.
  induction n as [|n IH].
  - cbn. lra.
  - rewrite S_INR, Nat.iter_succ, IH. lra.
Qed.

Lemma sparse_sum_after (c : R) (x_sparse : list Z) (row row' : list R) (l : list Z) :
  (forall j wj, row !! j = Some wj ->
     row' !! j = Some (Nat.iter (occurrences j x_sparse) (fun v => v + c) wj)) ->
  Forall (fun i => (0 <= i < Z.of_nat (length row))%Z) l ->
  sum_R (map (fun i => row' !!! Z.to_nat i) l)
  = sum_R (map (fun i => row !!! Z.to_nat i) l)
    + c * sum_R (map (fun i => INR (occurrences (Z.to_nat i) x_sparse)) l).
Proof.
  unfold sum_R. intros Hrows Hl. induction Hl as [|i l Hi _ IH]; cbn [map foldr].
  - lra.
  - destruct (lookup_lt_is_Some_2 row (Z.to_nat i)) as [wj Hwj]; [lia|].
    rewrite (list_lookup_total_correct _ _ _ (Hrows _ _ Hwj)).
    rewrite (list_lookup_total_correct _ _ _ Hwj), iter_add, IH. lra.
Qed.

Lemma sum_R_nonneg (l : list R) : Forall (fun v => 0 <= v) l -> 0 <= sum_R l.
Proof.
  unfold sum_R. induction 1 as [|v l Hv _ IH]; cbn [foldr]; lra.
Qed.

(** X11.  In exact arithmetic one call of [update] changes the dot product
    of the same observation by alpha * (y - p) times the sum of the squared
    dense features plus, for every position of the sparse index list, the
    number of positions that hold its index (3 for three distinct indices):
    with a learning rate [alpha >= 0] the dot product moves up when the
    target is above the prediction and down when it is below. *)
Theorem exact_update_moves_dot_product (alpha p : R) (y : Z) (w w_sparse : loc)
    (x : list R) (x_sparse : list Z) (h : heap R) :
  (w < length h)%nat -> (w_sparse < length h)%nat -> w <> w_sparse ->
  (length x <= length (h !!! w))%nat ->
  Forall (fun i => (0 <= i < Z.of_nat (length (h !!! w_sparse)))%Z) x_sparse ->
  exists (d : R) (h' : heap R) (d' : R),
    wTx w w_sparse x x_sparse h = Ok d
    /\ update alpha w w_sparse x x_sparse p y h = Ok h'
    /\ wTx w w_sparse x x_sparse h' = Ok d'
    /\ d' = (d + alpha * (IZR y - p)
                  * (sum_R (map (fun v => v * v) x)
                     + sum_R (map (fun i => INR (occurrences (Z.to_nat i) x_sparse))
                                x_sparse)))%R
    /\ ((0 <= alpha * (IZR y - p))%R -> (d <= d')%R)
    /\ ((alpha * (IZR y - p) <= 0)%R -> (d' <= d)%R).
Proof.
  intros Hw Hws Hne Hx Hxs.
  assert (Hfy : float_of_int (F := R) y = Ok (IZR y)) by reflexivity.
  destruct (update_spec alpha p (IZR y) y w w_sparse x x_sparse h Hw Hws Hne Hx Hxs Hfy)
    as (h' & Hup & Hlen & _ & Hlw & Hlws & Hdense & Hsparse).
  eexists _, h', _. split; [apply wTx_sum; assumption|]. split; [exact Hup|].
  split; [apply wTx_sum; [rewrite Hlw; exact Hx|rewrite Hlws; exact Hxs]|].
  rewrite !foldl_sparse_sum, !foldl_dense_sum.
  cbn [fadd fmul fsub exact] in Hdense, Hsparse.
  rewrite (dense_sum_after ((IZR y - p) * alpha) x (h !!! w) (h' !!! w) Hx Hlw).
  2: { intros i wi Hi. rewrite (Hdense i wi Hi). destruct (x !! i); f_equal; lra. }
  rewrite (sparse_sum_after ((IZR y - p) * alpha) x_sparse
             (h !!! w_sparse) (h' !!! w_sparse) x_sparse Hsparse Hxs).
  set (sq := sum_R (map (fun v => v * v) x)).
  set (oc := sum_R (map (fun i => INR (occurrences (Z.to_nat i) x_sparse)) x_sparse)).
  assert (Hsq : 0 <= sq).
  { apply sum_R_nonneg, Forall_map, Forall_forall. intros v _. cbn beta. nra. }
  assert (Hoc : 0 <= oc).
  { apply sum_R_nonneg, Forall_map, Forall_forall. intros v _. cbn beta. apply pos_INR. }
  split; [cbn [lit_0 exact]; lra|].
  cbn [lit_0 exact]. split; intros Hs.
  - pose proof (Rmult_le_pos _ _ Hs (Rplus_le_le_0_compat _ _ Hsq Hoc)). lra.
  - assert (0 <= - (alpha * (IZR y - p))) as Hs' by lra.
    pose proof (Rmult_le_pos _ _ Hs' (Rplus_le_le_0_compat _ _ Hsq Hoc)). lra.
Qed.

End ExactUpdate.

Lemma exact_update_moves_dot_product_witness :
  let h := [[0; 0]; [0; 0; 0]]%R in
  let x := [1; 2]%R in
  let x_sparse := [0; 2; 2] in
  exists (d : R) (h' : heap R) (d' : R),
    wTx 0%nat 1%nat x x_sparse h = Ok d
    /\ update (/ 10)%R 0%nat 1%nat x x_sparse (/ 2)%R 1 h = Ok h'
    /\ wTx 0%nat 1%nat x x_sparse h' = Ok d'
    /\ d' = (d + / 10 * (IZR 1 - / 2)
                  * (sum_R (map (fun v => v * v) x)
                     + sum_R (map (fun i => INR (occurrences (Z.to_nat i) x_sparse))
                                x_sparse)))%R
    /\ ((0 <= / 10 * (IZR 1 - / 2))%R -> (d <= d')%R)
    /\ ((/ 10 * (IZR 1 - / 2) <= 0)%R -> (d' <= d)%R).
Proof.
  apply (exact_update_moves_dot_product (/ 10)%R (/ 2)%R 1 0%nat 1%nat
           [1; 2]%R [0; 2; 2] [[0; 0]; [0; 0; 0]]%R).
  - cbn. lia.
  - cbn. lia.
  - discriminate.
  - cbn. lia.
  - repeat (apply Forall_cons; split; [cbn; lia|]). apply Forall_nil_2.
Defined.

(** ** When [predict] raises [IndexError] *)

Section IndexErrors.

Context {F : Type} `{PyFloat F}.

Lemma getitem_defined {A : Type} (l : list A) (i : Z) :
  (exists a, getitem l i = Ok a) <-> - Z.of_nat (length l) <= i < Z.of_nat (length l).
Proof.
  unfold getitem, py_index. split.
  - intros [a Ha].
    repeat case_bool_decide; cbn [mbind res_bind] in Ha; try lia; discriminate.
  - intros Hi. case_bool_decide.
    + cbn [mbind res_bind].
      destruct (lookup_lt_is_Some_2 l (Z.to_nat i)) as [a Ha]; [lia|].
      rewrite Ha. eauto.
    + rewrite bool_decide_eq_true_2 by lia. cbn [mbind res_bind].
      destruct (lookup_lt_is_Some_2 l (Z.to_nat (i + Z.of_nat (length l)))) as [a Ha]; [lia|].
      rewrite Ha. eauto.
Qed.

Lemma getitem_undefined {A : Type} (l : list A) (i : Z) :
  ~ (- Z.of_nat (length l) <= i < Z.of_nat (length l)) -> getitem l i = Raise IndexError.
Proof.
  intros Hi. destruct (getitem l i) as [a|e] eqn:E.
  - exfalso. apply Hi, getitem_defined. eauto.
  - f_equal. exact (getitem_raises _ _ _ E).
Qed.

Lemma dense_loop_index_error (row x : list F) (k : nat) (acc : F) :
  (k <= length row < k + length x)%nat ->
  for_each (fun wTx '(i, val) => wi ← getitem row i; Ok (fadd wTx (fmul wi val)))
    (imap (fun i a => (Z.of_nat (k + i), a)) x) acc
  = Raise IndexError.
Proof.
  revert k acc. induction x as [|a x IH]; intros k acc Hlen.
  - cbn [length] in Hlen. lia.
  - rewrite imap_cons. cbn [for_each length] in *. rewrite Nat.add_0_r.
    destruct (decide (k < length row)%nat) as [Hk|Hk].
    + destruct (lookup_lt_is_Some_2 row k Hk) as [wi Hwi].
      rewrite (getitem_nonneg _ _ _ Hwi). cbn [mbind res_bind].
      rewrite <- (IH (S k) (fadd acc (fmul wi a))) by lia.
      f_equal. apply imap_ext. intros i b _. simpl. do 2 f_equal. lia.
    + rewrite getitem_undefined by lia. reflexivity.
Qed.

Lemma sparse_loop_defined (row : list F) (x_sparse : list Z) :
  forall acc : F,
    (exists d, for_each (fun wTx i => wi ← getitem row i; Ok (fadd wTx wi)) x_sparse acc
               = Ok d)
    <-> Forall (fun i => - Z.of_nat (length row) <= i < Z.of_nat (length row)) x_sparse.
Proof.
  induction x_sparse as [|i l IH]; intros acc; cbn [for_each].
  - split; [constructor|eauto].
  - rewrite Forall_cons. destruct (getitem row i) as [wi|e] eqn:E; cbn [mbind res_bind].
    + rewrite IH. split; [intros Hl; split; [apply getitem_defined; eauto|exact Hl]|tauto].
    + split; [intros [d Hd]; discriminate|].
      intros [Hi _]. apply getitem_defined in Hi. destruct Hi as [a Ha]. congruence.
Qed.

Lemma wTx_defined (w w_sparse : loc) (x : list F) (x_sparse : list Z) (h : heap F) :
  (exists d, wTx w w_sparse x x_sparse h = Ok d)
  <-> (length x <= length (h !!! w))%nat
      /\ Forall (fun i => - Z.of_nat (length (h !!! w_sparse)) <= i
                          < Z.of_nat (length (h !!! w_sparse))) x_sparse.
Proof.
  unfold wTx, enumerate.
  destruct (decide (length x <= length (h !!! w))%nat) as [Hx|Hx].
  - rewrite (dense_dot_loop (h !!! w) x 0 lit_0) by (cbn; lia). cbn [mbind res_bind].
    rewrite sparse_loop_defined. tauto.
  - rewrite (dense_loop_index_error (h !!! w) x 0 lit_0) by (cbn; lia).
    cbn [mbind res_bind]. split; [intros [d Hd]; discriminate|tauto].
Qed.

End IndexErrors.

(** X12.  [predict] raises [IndexError] exactly when the dense feature
    vector is longer than the dense weight vector or some sparse index [i]
    is outside [-n <= i < n] for the [n] sparse weights (a negative index
    counts from the end, as in every Python list); it then raises nothing
    else, and on other inputs it never raises [IndexError]. *)
Theorem predict_index_error {F : Type} `{PyFloat F} `{!PyFloatLaws F}
    (w w_sparse : loc) (x : list F) (x_sparse : list Z) (h : heap F) :
  predict w w_sparse x x_sparse h = Raise IndexError
  <-> ~ ((length x <= length (h !!! w))%nat
         /\ Forall (fun i => - Z.of_nat (length (h !!! w_sparse)) <= i
                             < Z.of_nat (length (h !!! w_sparse))) x_sparse).
Proof.
  rewrite <- wTx_defined. unfold predict.
  destruct (wTx w w_sparse x x_sparse h) as [d|e] eqn:Hd; cbn [mbind res_bind].
  - split; [|intros Hn; exfalso; apply Hn; eauto].
    intros Hr. exfalso.
    destruct (math_exp _) as [v|e0] eqn:E0; cbn [mbind res_bind] in Hr.
    + apply fdiv_raises in Hr. discriminate.
    + injection Hr as ->. apply math_exp_raises in E0. discriminate.
  - rewrite (wTx_raises _ _ _ _ _ _ Hd).
    split; [intros _ [d Hd']; discriminate|reflexivity].
Qed.

Lemma predict_index_error_witness :
  predict 0%nat 1%nat [1; 0]%float [5; -1; 6] [[0; 0]; [0; 0; 0; 0; 0; 1]]%float
  = Raise IndexError
  <-> ~ ((length [1; 0]%float
          <= length ([[0; 0]; [0; 0; 0; 0; 0; 1]]%float !!! 0%nat))%nat
         /\ Forall (fun i => - Z.of_nat (length ([[0; 0]; [0; 0; 0; 0; 0; 1]]%float !!! 1%nat))
                             <= i
                             < Z.of_nat (length ([[0; 0]; [0; 0; 0; 0; 0; 1]]%float !!! 1%nat)))
              [5; -1; 6]).
Proof.
  pose proof (predict_index_error (F := float) 0%nat 1%nat [1; 0]%float [5; -1; 6]
                [[0; 0]; [0; 0; 0; 0; 0; 1]]%float) as Hrun.
  exact Hrun.
Defined.

(** ** A dot product that is not a number *)

Lemma b64_is_nan (d : float) : PrimFloat.is_nan d = true -> d = nan.
Proof.
  unfold PrimFloat.is_nan. rewrite FloatAxioms.eqb_spec. intros Hnan.
  apply FloatAxioms.Prim2SF_inj. change (Prim2SF nan) with S754_nan.
  destruct (Prim2SF d) as [s|s| |s m e]; try reflexivity; exfalso;
    unfold SFeqb, SFcompare in Hnan.
  - discriminate.
  - destruct s; discriminate.
  - rewrite Z.compare_refl, Pos.compare_cont_refl in Hnan. destruct s; discriminate.
Qed.

(** X13.  In binary64 the clipping of [predict] does not catch a dot
    product that is not a number ([min] and [max] keep their first argument
    when the comparison fails): [predict] then raises nothing and returns
    NaN, and since [NaN > .5] is false the evaluation cell stores the bit 0
    for it. *)
Theorem predict_propagates_nan (w w_sparse : loc) (x : list float) (x_sparse : list Z)
    (h : heap float) (d : float) :
  wTx w w_sparse x x_sparse h = Ok d ->
  PrimFloat.is_nan d = true ->
  clip d = nan
  /\ predict w w_sparse x x_sparse h = Ok nan
  /\ flt lit_half nan = false.
Proof.
  intros Hd Hnan. apply b64_is_nan in Hnan. subst d.
  split; [vm_compute; reflexivity|]. split; [|reflexivity].
  rewrite predict_b64, Hd. cbn [mbind res_bind]. vm_compute. reflexivity.
Qed.

Lemma predict_propagates_nan_witness :
  clip (infinity + neg_infinity)%float = nan
  /\ predict 0%nat 1%nat [1; 1]%float [0; 1; 2] [[infinity; neg_infinity]; [0; 0; 0]]%float
     = Ok nan
  /\ flt lit_half nan = false.
Proof.
  apply (predict_propagates_nan 0%nat 1%nat [1; 1]%float [0; 1; 2]
           [[infinity; neg_infinity]; [0; 0; 0]]%float (infinity + neg_infinity)%float).
  - vm_compute. reflexivity.
  - vm_compute. reflexivity.
Defined.

(** ** The topic notebook: which tokens survive *)

Section TopicsProperties.

Variable stopwords : list string.
Variable lower : string -> string.
Variable bytes : Type.
Variable encode : string -> bytes.

Lemma unfurl_from (article : list (list string)) (acc : list bytes) :
  foldl (fun this_article sentence =>
           this_article
           ++ map (fun token => encode (lower token))
                  (filter (fun token => is_stopword stopwords token = false) sentence))
        acc article
  = acc ++ map (fun token => encode (lower token))
             (filter (fun token => is_stopword stopwords token = false) (concat article)).
Proof.
  revert acc. induction article as [|sentence article IH]; intros acc; cbn [foldl concat].
  - cbn. rewrite app_nil_r. reflexivity.
  - rewrite IH, filter_app, map_app, app_assoc. reflexivity.
Qed.

Lemma is_stopword_false (token : string) :
  is_stopword stopwords token = false
  <-> (4 <= String.length token)%nat /\ token ∉ stopwords.
Proof.
  unfold is_stopword. rewrite orb_false_iff, !bool_decide_eq_false.
  split; intros [Hlen Hnot]; (split; [lia|exact Hnot]).
Qed.

Lemma elem_of_concat {A : Type} (x : A) (ls : list (list A)) :
  x ∈ concat ls <-> exists l, x ∈ l /\ l ∈ ls.
Proof.
  induction ls as [|l ls IH]; cbn [concat].
  - split; [intros Hin; inversion Hin|intros (l & _ & Hl); inversion Hl].
  - rewrite elem_of_app, IH. split.
    + intros [Hin|(l' & Hin & Hl')]; [exists l|exists l']; split; try assumption.
      * apply list_elem_of_here.
      * apply list_elem_of_further. exact Hl'.
    + intros (l' & Hin & Hl'). apply elem_of_cons in Hl' as [->|Hl']; [left|right]; eauto.
Qed.

Lemma unfurl_flat (article : list (list string)) :
  unfurl stopwords lower bytes encode article
  = map (fun token => encode (lower token))
      (filter (fun token => is_stopword stopwords token = false) (concat article)).
Proof. unfold unfurl. rewrite unfurl_from. reflexivity. Qed.

End TopicsProperties.

(** X14.  The stop-word cell flattens an article: its token list is, in
    the order of the text, the lower-cased and encoded tokens of all
    sentences that have at least four characters and are not in the stop
    word list; nothing else is in it, and it has one entry per article. *)
Theorem unfurl_keeps_long_words (stopwords : list string) (lower : string -> string)
    (bytes : Type) (encode : string -> bytes) (article : list (list string)) :
  unfurl stopwords lower bytes encode article
  = map (fun token => encode (lower token))
      (filter (fun token => is_stopword stopwords token = false) (concat article))
  /\ (forall b : bytes,
        b ∈ unfurl stopwords lower bytes encode article
        <-> exists sentence token,
              sentence ∈ article /\ token ∈ sentence
              /\ (4 <= String.length token)%nat /\ (token ∉ stopwords)
              /\ b = encode (lower token))
  /\ (length (unfurl stopwords lower bytes encode article)
      <= length (concat article))%nat
  /\ forall articles,
       length (articles_unfurled stopwords lower bytes encode articles) = length articles.
Proof.
  split; [apply unfurl_flat|]. split; [|split].
  - intros b. rewrite unfurl_flat, list_elem_of_fmap. split.
    + intros (token & -> & Hin). apply list_elem_of_filter in Hin as [Hkeep Hin].
      apply elem_of_concat in Hin as (sentence & Htok & Hsen).
      apply is_stopword_false in Hkeep as [Hlen Hnot].
      exists sentence, token. repeat split; assumption.
    + intros (sentence & token & Hsen & Htok & Hlen & Hnot & ->).
      exists token. split; [reflexivity|]. apply list_elem_of_filter. split.
      * apply is_stopword_false. split; assumption.
      * apply elem_of_concat. exists sentence. split; assumption.
  - rewrite unfurl_flat, length_map. apply length_filter.
  - intros articles. unfold articles_unfurled. apply length_map.
Qed.

(** X15.  The stop-word test sees the token before it is lower-cased: a
    token of at least four characters that is not in the stop word list
    itself is kept even when its lower-cased form is in the list, so the
    output of the cell can contain stop words. *)
Theorem unfurl_tests_before_lowering (stopwords : list string) (lower : string -> string)
    (bytes : Type) (encode : string -> bytes) (article : list (list string))
    (sentence : list string) (token : string) :
  sentence ∈ article -> token ∈ sentence ->
  (4 <= String.length token)%nat -> token ∉ stopwords -> lower token ∈ stopwords ->
  encode (lower token) ∈ unfurl stopwords lower bytes encode article
  /\ is_stopword stopwords (lower token) = true.
Proof.
  intros Hsen Htok Hlen Hnot Hlow. split.
  - rewrite unfurl_flat. apply list_elem_of_fmap. exists token. split; [reflexivity|].
    apply list_elem_of_filter. split.
    + apply is_stopword_false. split; assumption.
    + apply elem_of_concat. exists sentence. split; assumption.
  - unfold is_stopword. apply orb_true_iff. right. apply bool_decide_eq_true. exact Hlow.
Qed.

Lemma unfurl_tests_before_lowering_witness :
  let stopwords := ["their"; "there"]%string in
  let lower := fun s : string => if String.eqb s "Their" then "their"%string else s in
  let article := [["Their"; "cells"; "are"; "there"]; ["cells"; "divide"]]%string in
  lower "Their"%string ∈ unfurl stopwords lower string (fun s => s) article
  /\ is_stopword stopwords (lower "Their"%string) = true.
Proof.
  cbv zeta.
  apply (unfurl_tests_before_lowering ["their"; "there"]%string
           (fun s : string => if String.eqb s "Their" then "their"%string else s)
           string (fun s => s)
           [["Their"; "cells"; "are"; "there"]; ["cells"; "divide"]]%string
           ["Their"; "cells"; "are"; "there"]%string "Their"%string).
  - apply list_elem_of_here.
  - apply list_elem_of_here.
  - cbn. lia.
  - intros Hin. apply (bool_decide_pack _) in Hin. vm_compute in Hin. exact Hin.
  - apply (bool_decide_unpack _). vm_compute. exact I.
Defined.
